(** * ffox-remote: the Firefox X remote-control client

    A shallow embedding of the protocol engine of ffox-remote (the
    current version of the program, with [profileMatch], [fixupPref] and
    [submitCommand]): the command line encoder, the window matcher, the
    lock protocol, the property-change wait and the session.

    Go values are modelled as follows.
    - [string] is a Go string, a sequence of bytes; [list byte] is a
      [[]byte] buffer.
    - [int] values (lengths, offsets) are in [Z]; [uint32(x)] is
      [x mod 2^32], written out as [uint32].
    - The X server is an explicit state, threaded through a small
      monad whose results distinguish a normal return, [log.Fatal],
      a run-time panic and a wait that never ends. *)

From Stdlib Require Import ZArith Lia List Ascii String.
From Stdlib.Strings Require Import Byte.
From Stdlib.Strings Require HexString.
From stdpp Require Import base option list gmap strings fin_maps.

Import ListNotations.
Local Open Scope Z_scope.

(** ** Machine integers and bytes *)

Definition uint32 (x : Z) : Z := x mod 2 ^ 32.

Definition byte_of_Z (x : Z) : byte :=
  match Byte.of_N (Z.to_N (x mod 256)) with
  | Some b => b
  | None => x00
  end.

Definition Z_of_byte (b : byte) : Z := Z.of_N (Byte.to_N b).

(** [binary.LittleEndian.PutUint32]: the four bytes of a uint32, least
    significant first. *)
Definition putUint32 (v : Z) : list byte :=
  [ byte_of_Z v;
    byte_of_Z (Z.shiftr v 8);
    byte_of_Z (Z.shiftr v 16);
    byte_of_Z (Z.shiftr v 24) ].

(** [binary.Write(buf, binary.LittleEndian, arr)] for [arr []uint32]. *)
Fixpoint writeUint32s (arr : list Z) : list byte :=
  match arr with
  | [] => []
  | v :: rest => putUint32 v ++ writeUint32s rest
  end.

(** Go's [len] on a string and on a slice, as an [int]. *)
Definition len (s : string) : Z := Z.of_nat (String.length s).
Definition lenl {A} (l : list A) : Z := Z.of_nat (List.length l).

(** ** Command line encoder *)

(** [addArgStr] appends [s] and a 0 byte to the writer and returns the
    number of bytes written.  The writer is a [bytes.Buffer], whose
    [Write] does not fail. *)
Definition addArgStr (w : list byte) (s : string) : list byte * Z :=
  let w1 := w ++ list_byte_of_string s in
  let n := len s in
  let w2 := w1 ++ [x00] in
  let n2 := 1 in
  (w2, n + n2).

(** The body of [for i := range args]: [arr[i+1] = uint32(off)] and
    [off += addArgStr(arenc, args[i])]. *)
Fixpoint encodeArgs (i : nat) (args : list string)
    (arr : list Z) (arenc : list byte) (off : Z) : list Z * list byte * Z :=
  match args with
  | [] => (arr, arenc, off)
  | a :: rest =>
      let arr' := <[S i := uint32 off]> arr in
      let '(arenc', n) := addArgStr arenc a in
      encodeArgs (S i) rest arr' arenc' (off + n)
  end.

Definition encodeCommandLine (pwd : string) (args : list string) : list byte :=
  let arr := replicate (S (List.length args)) 0 in
  let arr := <[0%nat := uint32 (lenl args)]> arr in
  let off := lenl arr * 4 in
  let '(arenc, n) := addArgStr [] pwd in
  let off := off + n in
  let '(arr, arenc, _) := encodeArgs 0 args arr arenc off in
  writeUint32s arr ++ arenc.

(** ** The documented layout, read back

    [[argc][offsetargv0][offsetargv1...]<workingdir>\0<argv[0]>\0argv[1]...\0],
    offsets from the beginning of the buffer, integers little-endian. *)

Definition getUint32 (b0 b1 b2 b3 : byte) : Z :=
  Z_of_byte b0 + Z.shiftl (Z_of_byte b1) 8
  + Z.shiftl (Z_of_byte b2) 16 + Z.shiftl (Z_of_byte b3) 24.

(** The [k]-th integer of the header. *)
Definition header (buf : list byte) (k : nat) : option Z :=
  match drop (4 * k) buf with
  | b0 :: b1 :: b2 :: b3 :: _ => Some (getUint32 b0 b1 b2 b3)
  | _ => None
  end.

(** The bytes before the first 0 byte; [None] when there is none. *)
Fixpoint cstring (buf : list byte) : option (list byte) :=
  match buf with
  | [] => None
  | b :: rest =>
      if Byte.eqb b x00 then Some []
      else match cstring rest with
           | Some l => Some (b :: l)
           | None => None
           end
  end.

(** The NUL-terminated region that starts at byte offset [off]. *)
Definition cstringAt (buf : list byte) (off : Z) : option string :=
  if Z.ltb off 0 then None
  else option_map string_of_list_byte (cstring (drop (Z.to_nat off) buf)).

Fixpoint decodeArgs (buf : list byte) (i n : nat) : option (list string) :=
  match n with
  | O => Some []
  | S n' =>
      match header buf (S i) with
      | None => None
      | Some off =>
          match cstringAt buf off, decodeArgs buf (S i) n' with
          | Some a, Some rest => Some (a :: rest)
          | _, _ => None
          end
      end
  end.

Definition decodeCommandLine (buf : list byte) : option (list string) :=
  match header buf 0 with
  | None => None
  | Some argc => decodeArgs buf 0 (Z.to_nat argc)
  end.

(** A string has no embedded NUL byte. *)
Definition nulFree (s : string) : bool :=
  forallb (fun b => negb (Byte.eqb b x00)) (list_byte_of_string s).

(** ** Strings *)

(** [strings.HasSuffix]. *)
Definition HasSuffix (s suffix : string) : bool :=
  (String.length suffix <=? String.length s)%nat
  && String.eqb (substring (String.length s - String.length suffix)
                           (String.length suffix) s) suffix.

(** ** Property names

    The names are package variables: [fixupPref] rewrites their
    [_MOZILLA] prefix once, before the first request, when [-pref] is
    given. *)

Record PropNames := {
  lockProp : string;
  cmdlProp : string;
  respProp : string;
  versProp : string;
  userProp : string;
  profProp : string;
  progProp : string
}.

Definition mozillaNames : PropNames := {|
  lockProp := "_MOZILLA_LOCK";
  cmdlProp := "_MOZILLA_COMMANDLINE";
  respProp := "_MOZILLA_RESPONSE";
  versProp := "_MOZILLA_VERSION";
  userProp := "_MOZILLA_USER";
  profProp := "_MOZILLA_PROFILE";
  progProp := "_MOZILLA_PROGRAM"
|}.

Definition firefoxVersion : string := "5.1".

(** One element of [fixupPref]: [pfix + us[plen:]], [plen = len("_MOZILLA")]. *)
Definition fixupOne (pfix us : string) : string :=
  let plen := String.length "_MOZILLA" in
  (pfix ++ substring plen (String.length us - plen) us)%string.

Definition fixupPref (pfix : string) (nm : PropNames) : PropNames := {|
  lockProp := fixupOne pfix (lockProp nm);
  cmdlProp := fixupOne pfix (cmdlProp nm);
  respProp := fixupOne pfix (respProp nm);
  versProp := fixupOne pfix (versProp nm);
  userProp := fixupOne pfix (userProp nm);
  profProp := fixupOne pfix (profProp nm);
  progProp := fixupOne pfix (progProp nm)
|}.

(** ** The X server, as this client sees it *)

Definition Window := Z.

(** [xproto.PropertyNewValue = 0], [xproto.PropertyDelete = 1]. *)
Inductive PropState := PropertyNewValue | PropertyDelete.

Record PropertyNotifyEvent := {
  evAtom : string;
  evState : PropState
}.

(** The zero value of the event type: [State] is 0. *)
Definition zeroEvent : PropertyNotifyEvent :=
  {| evAtom := ""; evState := PropertyNewValue |}.

(** What happens, in order, while this client waits in the event loop:
    other clients change properties, and the server delivers events. *)
Inductive XStep :=
| EnvSet (w : Window) (prop : string) (v : list byte)
| EnvDelete (w : Window) (prop : string)
| EvPropertyNotify (w : Window) (ev : PropertyNotifyEvent)
| EvDestroyNotify (w : Window)
| EvOther
| EvQuit.

(** The requests this client issues. *)
Inductive XRequest :=
| ReqQueryTree (w : Window)
| ReqGetProperty (w : Window) (prop : string)
| ReqChangeProp (w : Window) (prop typ : string) (data : list byte)
| ReqDeleteProperty (w : Window) (prop : string)
| ReqGrab
| ReqUngrab
| ReqSync
| ReqListen (w : Window).

(** The server and the connection to it.
    - [props]: the properties of the windows, by window and name.
    - [tree]: the children of each window that exists; [QueryTree] fails
      on a window without an entry.
    - [script]: what is still to happen while this client waits.
    - [writeFaults]: whether each of the coming checked property writes
      fails ([true]); once the list is used up, writes succeed.
    - [listenFault]: whether selecting events on a window fails.
    - [requests]: the requests issued so far, newest first.
    - [logged]: the lines printed with [log.Printf], newest first. *)
Record XServer := {
  props : gmap (Window * string) (list byte);
  tree : gmap Window (list Window);
  rootWin : Window;
  script : list XStep;
  writeFaults : list bool;
  listenFault : bool;
  requests : list XRequest;
  logged : list string
}.

Definition setProps (f : gmap (Window * string) (list byte)
                         -> gmap (Window * string) (list byte))
    (s : XServer) : XServer :=
  {| props := f (props s); tree := tree s; rootWin := rootWin s;
     script := script s; writeFaults := writeFaults s;
     listenFault := listenFault s; requests := requests s;
     logged := logged s |}.

Definition setScript (st : list XStep) (s : XServer) : XServer :=
  {| props := props s; tree := tree s; rootWin := rootWin s;
     script := st; writeFaults := writeFaults s;
     listenFault := listenFault s; requests := requests s;
     logged := logged s |}.

Definition setWriteFaults (wf : list bool) (s : XServer) : XServer :=
  {| props := props s; tree := tree s; rootWin := rootWin s;
     script := script s; writeFaults := wf;
     listenFault := listenFault s; requests := requests s;
     logged := logged s |}.

Definition addRequest (r : XRequest) (s : XServer) : XServer :=
  {| props := props s; tree := tree s; rootWin := rootWin s;
     script := script s; writeFaults := writeFaults s;
     listenFault := listenFault s; requests := r :: requests s;
     logged := logged s |}.

Definition addLog (msg : string) (s : XServer) : XServer :=
  {| props := props s; tree := tree s; rootWin := rootWin s;
     script := script s; writeFaults := writeFaults s;
     listenFault := listenFault s; requests := requests s;
     logged := msg :: logged s |}.

(** ** Results of a call

    [Returned]: the call returns.  [Fatal]: [log.Fatal], the process
    exits.  [Panicked]: a run-time panic.  [Blocked]: the call waits for
    an event that never comes.  [OutOfFuel]: a loop was unrolled too few
    times (shown below not to happen for [lockFirefox]). *)

Inductive Outcome (A : Type) :=
| Returned (a : A) (s : XServer)
| Fatal (msg : string) (s : XServer)
| Panicked (s : XServer)
| Blocked (s : XServer)
| OutOfFuel.

Arguments Returned {A} a s.
Arguments Fatal {A} msg s.
Arguments Panicked {A} s.
Arguments Blocked {A} s.
Arguments OutOfFuel {A}.

Definition X (A : Type) : Type := XServer -> Outcome A.

Definition ret {A} (a : A) : X A := fun s => Returned a s.

Definition bind {A B} (m : X A) (k : A -> X B) : X B :=
  fun s =>
    match m s with
    | Returned a s' => k a s'
    | Fatal msg s' => Fatal msg s'
    | Panicked s' => Panicked s'
    | Blocked s' => Blocked s'
    | OutOfFuel => OutOfFuel
    end.

Notation "x <- m ;; k" := (bind m (fun x => k))
  (at level 100, m at next level, right associativity).
Notation "m ;;; k" := (bind m (fun _ => k))
  (at level 100, right associativity).

Definition logFatal {A} (msg : string) : X A := fun s => Fatal msg s.
Definition logPrintf (msg : string) : X unit :=
  fun s => Returned tt (addLog msg s).
Definition panic {A} : X A := fun s => Panicked s.

(** [s[i]] on a string: a run-time panic when out of range. *)
Definition index (s : string) (i : nat) : X ascii :=
  match String.get i s with
  | Some c => ret c
  | None => panic
  end.

(** *** Requests *)

(** [xprop.GetProperty]: an error ([None]) when the window has no such
    property. *)
Definition GetProperty (win : Window) (prop : string) : X (option (list byte)) :=
  fun s => Returned (props s !! (win, prop)) (addRequest (ReqGetProperty win prop) s).

(** [xprop.ChangeProp], a checked request: [true] stands for [e == nil]. *)
Definition ChangeProp (win : Window) (prop typ : string) (data : list byte) : X bool :=
  fun s =>
    let s1 := addRequest (ReqChangeProp win prop typ data) s in
    match writeFaults s1 with
    | true :: wf => Returned false (setWriteFaults wf s1)
    | false :: wf =>
        Returned true (setProps (insert (win, prop) data) (setWriteFaults wf s1))
    | [] => Returned true (setProps (insert (win, prop) data) s1)
    end.

(** [xproto.DeleteProperty], unchecked. *)
Definition DeleteProperty (win : Window) (atom : string) : X unit :=
  fun s =>
    Returned tt (setProps (delete (win, atom))
                          (addRequest (ReqDeleteProperty win atom) s)).

Definition QueryTree (win : Window) : X (option (list Window)) :=
  fun s => Returned (tree s !! win) (addRequest (ReqQueryTree win) s).

Definition Grab : X unit := fun s => Returned tt (addRequest ReqGrab s).
Definition Ungrab : X unit := fun s => Returned tt (addRequest ReqUngrab s).
Definition Sync : X unit := fun s => Returned tt (addRequest ReqSync s).

(** [w.Listen(...)]: [true] stands for [e == nil]. *)
Definition Listen (win : Window) : X bool :=
  fun s => Returned (negb (listenFault s)) (addRequest (ReqListen win) s).

Definition RootWin : X Window := fun s => Returned (rootWin s) s.

(** ** The protocol *)

Section Protocol.

Variable nm : PropNames.

(** Atoms are interned property names; [getAtoms] interns the lock and
    response names once. *)
Definition lockatom : string := lockProp nm.
Definition responseatom : string := respProp nm.

(** The scan of [tree.Children] in [ClientWindow]. *)
Fixpoint clientScan (cs : list Window) (win : Window) : X Window :=
  match cs with
  | [] => ret win
  | c :: rest =>
      p <- GetProperty c "WM_STATE" ;;
      match p with
      | Some _ => ret c
      | None => clientScan rest win
      end
  end.

Definition ClientWindow (win : Window) : X Window :=
  t <- QueryTree win ;;
  match t with
  | None => logFatal "c_w:"
  | Some children => clientScan children win
  end.

Definition propMatch (win : Window) (prop val : string) : X bool :=
  pv <- GetProperty win prop ;;
  match pv with
  | None => ret false
  | Some v => ret (String.eqb val "" || String.eqb (string_of_list_byte v) val)
  end.

Definition profileMatch (win : Window) (prop val : string) : X bool :=
  pv <- GetProperty win prop ;;
  match pv with
  | None => ret false
  | Some v =>
      let sv := string_of_list_byte v in
      if String.eqb val "" || String.eqb sv val then ret true
      else
        c <- index sv 0 ;;
        if Ascii.eqb c "/" then
          d <- index val 0 ;;
          if negb (Ascii.eqb d "/") && HasSuffix sv ("." ++ val) then ret true
          else ret false
        else ret false
  end.

(** The loop of [findFirefox] over [tree.Children]: [inl win] is the
    [return win] inside the loop, [inr wrongver] is falling out of it. *)
Fixpoint findScan (cs : list Window) (user profile program wrongver : string)
    : X (Window + string) :=
  match cs with
  | [] => ret (inr wrongver)
  | c :: rest =>
      win <- ClientWindow c ;;
      pv <- GetProperty win (versProp nm) ;;
      match pv with
      | None => findScan rest user profile program wrongver
      | Some v =>
          if negb (String.eqb (string_of_list_byte v) firefoxVersion) then
            findScan rest user profile program (string_of_list_byte v)
          else
            m1 <- propMatch win (userProp nm) user ;;
            m2 <- (if m1 then profileMatch win (profProp nm) profile else ret false) ;;
            m3 <- (if m2 then propMatch win (progProp nm) program else ret false) ;;
            if m3 then ret (inl win)
            else findScan rest user profile program wrongver
      end
  end.

Definition wrongVersionMessage (wrongver : string) : string :=
  ("found a protocol " ++ wrongver ++ " Firefox window but no "
   ++ firefoxVersion ++ " one.")%string.

Definition findFirefox (user profile program : string) : X Window :=
  root <- RootWin ;;
  t <- QueryTree root ;;
  match t with
  | None => logFatal "QueryTree"
  | Some children =>
      r <- findScan children user profile program "" ;;
      match r with
      | inl win => ret win
      | inr wrongver =>
          (if negb (String.eqb wrongver "")
           then logPrintf (wrongVersionMessage wrongver)
           else ret tt) ;;;
          ret 0
      end
  end.

(** The event loop of [waitForPropChange] over what the server sends:
    the callbacks are connected to [win], the first one that sets [done]
    ends the wait. *)
Fixpoint dispatch (win : Window) (patom : string) (steps : list XStep)
    (s : XServer) : Outcome (PropertyNotifyEvent * bool) :=
  match steps with
  | [] => Blocked (setScript [] s)
  | st :: rest =>
      match st with
      | EnvSet w p v => dispatch win patom rest (setProps (insert (w, p) v) s)
      | EnvDelete w p => dispatch win patom rest (setProps (delete (w, p)) s)
      | EvPropertyNotify w ev =>
          if Z.eqb w win && String.eqb (evAtom ev) patom
          then Returned (ev, true) (setScript rest s)
          else dispatch win patom rest s
      | EvDestroyNotify w =>
          if Z.eqb w win
          then Returned (zeroEvent, false) (setScript rest s)
          else dispatch win patom rest s
      | EvOther => dispatch win patom rest s
      | EvQuit => Returned (zeroEvent, false) (setScript rest s)
      end
  end.

Definition waitForPropChange (win : Window) (patom : string)
    : X (PropertyNotifyEvent * bool) :=
  fun s => dispatch win patom (script s) s.

Definition lockValue : list byte :=
  list_byte_of_string "ffox-remote.go on somewhere".

Definition tryLock (win : Window) : X bool :=
  Grab ;;;
  p <- GetProperty win (lockProp nm) ;;
  success <-
    (if match p with
        | None => true
        | Some v => Z.eqb (lenl v) 0
        end
     then ChangeProp win (lockProp nm) "STRING" lockValue
     else ret false) ;;
  Ungrab ;;;
  Sync ;;;
  ret success.

(** The [for] loop of [lockFirefox], unrolled [fuel] times. *)
Fixpoint lockFirefoxLoop (fuel : nat) (win : Window) : X unit :=
  match fuel with
  | O => fun _ => OutOfFuel
  | S fuel' =>
      res <- tryLock win ;;
      if res then ret tt
      else
        r <- waitForPropChange win lockatom ;;
        if negb (snd r) then logFatal "Firefox window disappeared"
        else lockFirefoxLoop fuel' win
  end.

(** Every turn of the loop that does not return takes at least one step
    of the script, so one more turn than the script is long is enough. *)
Definition lockFirefox (win : Window) : X unit :=
  fun s => lockFirefoxLoop (S (List.length (script s))) win s.

Definition unlockFirefox (win : Window) : X unit :=
  DeleteProperty win lockatom.

Definition getResponse (win : Window) : X string :=
  r <- waitForPropChange win responseatom ;;
  let event := fst r in
  let good := snd r in
  if negb good
     || negb match evState event with PropertyNewValue => true | _ => false end
  then ret ""%string
  else
    p <- GetProperty win (respProp nm) ;;
    match p with
    | Some v => ret (string_of_list_byte v)
    | None => ret ""%string
    end.

Definition submitCommand (win : Window) (cmd : list byte) (force : bool)
    : X string :=
  ok <- Listen win ;;
  (if negb ok then logFatal "listen error:" else ret tt) ;;;
  (if negb force then lockFirefox win else ret tt) ;;;
  ok <- ChangeProp win (cmdlProp nm) "STRING" cmd ;;
  (if negb ok
   then unlockFirefox win ;;; logFatal "command line change:"
   else ret tt) ;;;
  resp <- getResponse win ;;
  unlockFirefox win ;;;
  Sync ;;;
  ret resp.

End Protocol.

(** ** Reference values for the encoder *)

(** The true byte offset of each argument, the first one at [off]. *)
Fixpoint argOffsets (off : Z) (args : list string) : list Z :=
  match args with
  | [] => []
  | a :: rest => off :: argOffsets (off + (len a + 1)) rest
  end.

(** The string table of a list of strings: each one NUL-terminated. *)
Fixpoint stringTable (args : list string) : list byte :=
  match args with
  | [] => []
  | a :: rest => list_byte_of_string a ++ x00 :: stringTable rest
  end.

(** Where the first argument starts: after the header and the working
    directory. *)
Definition firstOffset (pwd : string) (args : list string) : Z :=
  (lenl args + 1) * 4 + (len pwd + 1).

(** Every argument starts at a byte offset that fits in 32 bits. *)
Definition offsetsFit (pwd : string) (args : list string) : bool :=
  forallb (fun o => o <? 2 ^ 32) (argOffsets (firstOffset pwd args) args).

Fixpoint replicateString (n : nat) (c : ascii) : string :=
  match n with
  | O => EmptyString
  | S n' => String c (replicateString n' c)
  end.

(** A working directory of 2^32 - 9 bytes. *)
Definition hugePwd : string := replicateString (Z.to_nat (2 ^ 32 - 9)) "d".

(** ** Observing a result *)

Definition returnedValue {A} (o : Outcome A) : option A :=
  match o with
  | Returned a _ => Some a
  | _ => None
  end.

Definition finalState {A} (o : Outcome A) : option XServer :=
  match o with
  | Returned _ s | Fatal _ s | Panicked s | Blocked s => Some s
  | OutOfFuel => None
  end.


(** The value of a property of a window, as a string. *)
Definition propertyOf (s : XServer) (win : Window) (prop : string) : option string :=
  option_map string_of_list_byte (props s !! (win, prop)).

(** What the matcher's reads leave unchanged. *)
Definition frame (s s' : XServer) : Prop :=
  props s' = props s /\ tree s' = tree s /\ rootWin s' = rootWin s
  /\ logged s' = logged s.

(** ** Reference predicates for profile matching *)

Definition startsWithSlash (s : string) : Prop :=
  exists rest, s = String "/" rest.

(** The rule of [profileMatch] on a present property value [sv]. *)
Definition profileRule (sv val : string) : Prop :=
  val = EmptyString \/ sv = val
  \/ (startsWithSlash sv /\ ~ startsWithSlash val
      /\ exists pre, sv = (pre ++ "." ++ val)%string).

(** ** Servers used as examples *)

Definition server (ps : list (Window * string * list byte))
    (tr : list (Window * list Window)) (sc : list XStep) (wf : list bool)
    : XServer :=
  {| props := list_to_map ps; tree := list_to_map tr; rootWin := 1;
     script := sc; writeFaults := wf; listenFault := false;
     requests := []; logged := [] |}.

Definition prop (w : Window) (name value : string)
    : Window * string * list byte :=
  (w, name, list_byte_of_string value).

(** One top-level window, 10, with the given properties. *)
Definition oneWindow (ps : list (Window * string * list byte)) : XServer :=
  server ps [(1, [10]); (10, [])] [] [].

Definition xyzProfile : string := "/home/u/.mozilla/firefox/xyz.default".

(** A Firefox window whose profile property is the full path. *)
Definition xyzServer : XServer :=
  oneWindow [prop 10 "_MOZILLA_VERSION" "5.1"; prop 10 "_MOZILLA_USER" "u";
             prop 10 "_MOZILLA_PROFILE" xyzProfile;
             prop 10 "_MOZILLA_PROGRAM" "firefox"].

(** A profile directory named exactly like the filter. *)
Definition plainDirServer : XServer :=
  oneWindow [prop 10 "_MOZILLA_VERSION" "5.1"; prop 10 "_MOZILLA_USER" "u";
             prop 10 "_MOZILLA_PROFILE" "/home/u/profiles/default";
             prop 10 "_MOZILLA_PROGRAM" "firefox"].

(** A Firefox window without a user property. *)
Definition noUserServer : XServer :=
  oneWindow [prop 10 "_MOZILLA_VERSION" "5.1";
             prop 10 "_MOZILLA_PROFILE" "default";
             prop 10 "_MOZILLA_PROGRAM" "firefox"].

(** A Firefox window without a profile property. *)
Definition noProfileServer : XServer :=
  oneWindow [prop 10 "_MOZILLA_VERSION" "5.1"; prop 10 "_MOZILLA_USER" "u";
             prop 10 "_MOZILLA_PROGRAM" "firefox"].

(** A Firefox window whose profile property is present and empty. *)
Definition emptyProfileServer : XServer :=
  oneWindow [prop 10 "_MOZILLA_VERSION" "5.1"; prop 10 "_MOZILLA_USER" "u";
             prop 10 "_MOZILLA_PROFILE" "";
             prop 10 "_MOZILLA_PROGRAM" "firefox"].


(** ** Reference notions for the event wait *)

(** The steps that end a wait on [patom] of [win]: a property event for
    that atom, the destruction of the window, or the end of the event
    loop. *)
Definition decisive (win : Window) (patom : string) (st : XStep) : bool :=
  match st with
  | EvPropertyNotify w ev => Z.eqb w win && String.eqb (evAtom ev) patom
  | EvDestroyNotify w => Z.eqb w win
  | EvQuit => true
  | _ => false
  end.

Definition quiet (win : Window) (patom : string) (steps : list XStep) : bool :=
  forallb (fun st => negb (decisive win patom st)) steps.

(** The property changes other clients make during some steps. *)
Definition applyEnv (m : gmap (Window * string) (list byte)) (st : XStep)
    : gmap (Window * string) (list byte) :=
  match st with
  | EnvSet w p v => <[(w, p) := v]> m
  | EnvDelete w p => delete (w, p) m
  | _ => m
  end.

Definition applyEnvs (steps : list XStep)
    (m : gmap (Window * string) (list byte))
    : gmap (Window * string) (list byte) :=
  fold_left applyEnv steps m.

(** What the wait reports for the step that ends it. *)
Definition waitResult (d : XStep) : PropertyNotifyEvent * bool :=
  match d with
  | EvPropertyNotify _ ev => (ev, true)
  | _ => (zeroEvent, false)
  end.

(** The number of lock attempts made so far: one server grab each. *)
Definition attempts (s : XServer) : nat :=
  List.length (List.filter (fun r => match r with ReqGrab => true | _ => false end)
                           (requests s)).


Definition respEvent (nm : PropNames) (win : Window) (st : PropState) : XStep :=
  EvPropertyNotify win {| evAtom := respProp nm; evState := st |}.


(** The lock is free and the first property write fails. *)
Definition faultyServer (sc : list XStep) : XServer :=
  server [] [] sc [true].

(** A stale lock is on the window and Firefox answers "200 ok". *)
Definition staleLockServer : XServer :=
  server [prop 10 "_MOZILLA_LOCK" "stale"] []
         [EnvSet 10 "_MOZILLA_RESPONSE" (list_byte_of_string "200 ok");
          respEvent mozillaNames 10 PropertyNewValue] [].

(** Whether the lock property is absent or empty. *)
Definition lockFree (nm : PropNames) (win : Window) (s : XServer) : bool :=
  match props s !! (win, lockProp nm) with
  | None => true
  | Some v => Z.eqb (lenl v) 0
  end.

(** The response that [getResponse] hands back when the wait ends at
    step [d] in state [s1]: the value of the response property for a
    new-value event, the empty string otherwise. *)
Definition responseAt (nm : PropNames) (win : Window) (d : XStep) (s1 : XServer)
    : Outcome string :=
  match d with
  | EvPropertyNotify _ {| evState := PropertyNewValue |} =>
      Returned match props s1 !! (win, respProp nm) with
               | Some v => string_of_list_byte v
               | None => EmptyString
               end
               (addRequest (ReqGetProperty win (respProp nm)) s1)
  | _ => Returned EmptyString s1
  end.



(** The state in which a call ends. *)
Definition endState {A} (o : Outcome A) (default : XServer) : XServer :=
  match finalState o with
  | Some s => s
  | None => default
  end.


(** ** Further reference values for the encoder *)

(** The size of a string table: every string and its 0 byte. *)
Definition tableSize (args : list string) : Z :=
  fold_right (fun a acc => len a + 1 + acc) 0 args.

(** The true byte offset of argument [i]: the header, the working
    directory and the arguments before it. *)
Definition trueOffset (pwd : string) (args : list string) (i : nat) : Z :=
  4 * (lenl args + 1) + (len pwd + 1) + tableSize (take i args).

(** The 0 byte as a character of a string. *)
Definition nul : ascii := Ascii.zero.

(** ** Reference notions for the matcher *)

(** The requests that only read from the server. *)
Definition isRead (r : XRequest) : bool :=
  match r with
  | ReqQueryTree _ | ReqGetProperty _ _ => true
  | _ => false
  end.

(** From [s] to [s'] the client only read: it issued read requests and
    left the properties, the windows, the script and the write faults
    as they were. *)
Definition reads (s s' : XServer) : Prop :=
  (exists rs, requests s' = rs ++ requests s /\ forallb isRead rs = true)
  /\ props s' = props s /\ tree s' = tree s /\ rootWin s' = rootWin s
  /\ script s' = script s /\ writeFaults s' = writeFaults s.

(** A call that ends (it returns, exits or panics) and only reads. *)
Definition readOnly {A} (m : X A) : Prop :=
  forall s, match m s with
            | Returned _ s' | Fatal _ s' | Panicked s' => reads s s'
            | Blocked _ | OutOfFuel => False
            end.

Definition hasState (m : gmap (Window * string) (list byte)) (c : Window) : bool :=
  match m !! (c, "WM_STATE"%string) with
  | Some _ => true
  | None => false
  end.

(** The client window of [win] with children [cs]: the first child that
    has [WM_STATE], else [win]. *)
Definition clientOf (m : gmap (Window * string) (list byte))
    (cs : list Window) (win : Window) : Window :=
  match List.find (hasState m) cs with
  | Some c => c
  | None => win
  end.

(** A window in state [s] is a Firefox window of the exact protocol
    version that passes the three filters. *)
Definition accepts (nm : PropNames) (user profile program : string)
    (s : XServer) (w : Window) : Prop :=
  propertyOf s w (versProp nm) = Some firefoxVersion
  /\ returnedValue (propMatch w (userProp nm) user s) = Some true
  /\ returnedValue (profileMatch w (profProp nm) profile s) = Some true
  /\ returnedValue (propMatch w (progProp nm) program s) = Some true.

(** What the scan of [findFirefox] over the windows [cs] may hand back in
    state [s]: a window that is the client window of one of them and is
    accepted, or nothing when no client window of them is accepted. *)
Definition scanSpec (nm : PropNames) (user profile program : string)
    (s : XServer) (cs : list Window) (r : Window + string) : Prop :=
  match r with
  | inl w =>
      exists c, c ∈ cs /\ returnedValue (ClientWindow c s) = Some w
                /\ accepts nm user profile program s w
  | inr _ =>
      forall c w, c ∈ cs -> returnedValue (ClientWindow c s) = Some w ->
                  ~ accepts nm user profile program s w
  end.

(** How the scan over the windows [cs] may fail in state [s]: a panic
    needs a profile filter and an accepted-so-far window whose profile
    property is present and empty; the only exit is a failed tree query
    on one of the windows; the scan never waits. *)
Definition scanFailure (nm : PropNames) (user profile : string)
    (s : XServer) (cs : list Window) {A} (o : Outcome A) : Prop :=
  match o with
  | Panicked _ =>
      String.eqb profile "" = false
      /\ exists c w, c ∈ cs /\ returnedValue (ClientWindow c s) = Some w
           /\ propertyOf s w (versProp nm) = Some firefoxVersion
           /\ returnedValue (propMatch w (userProp nm) user s) = Some true
           /\ props s !! (w, profProp nm) = Some []
  | Fatal msg _ =>
      msg = "c_w:"%string /\ exists c, c ∈ cs /\ tree s !! c = None
  | Returned _ _ => True
  | Blocked _ | OutOfFuel => False
  end.

(** ** Reference notions for the session *)

(** The response of a session whose wait ends at step [d] with the
    properties [m]: the response property for a new-value event, the
    empty string otherwise. *)
Definition sessionResponse (nm : PropNames) (win : Window) (d : XStep)
    (m : gmap (Window * string) (list byte)) : string :=
  match d with
  | EvPropertyNotify _ {| evState := PropertyNewValue |} =>
      match m !! (win, respProp nm) with
      | Some v => string_of_list_byte v
      | None => EmptyString
      end
  | _ => EmptyString
  end.

(** The requests of a lock attempt on a free lock, newest first. *)
Definition lockRequests (nm : PropNames) (win : Window) : list XRequest :=
  [ReqSync; ReqUngrab; ReqChangeProp win (lockProp nm) "STRING" lockValue;
   ReqGetProperty win (lockProp nm); ReqGrab].

(** ** The program

    [main] after [flag.Parse]: the flags are given, and so are the two
    answers of the system that [main] asks for, whether the X connection
    could be opened and the current directory.  Interning the two atoms
    in [getAtoms] is taken to succeed.  The first component of the result
    is what the run printed on standard output. *)

Module Flag.
Record t := {
  user : string;
  profile : string;
  program : string;
  force : bool;
  pfix : string;
  find : bool;
  verb : bool;
  nw : bool;
  nt : bool;
  search : bool;
  args : list string
}.
End Flag.

(** The flags when the command line gives none of them. *)
Definition defaultFlags (rest : list string) : Flag.t := {|
  Flag.user := ""; Flag.profile := "default"; Flag.program := "firefox";
  Flag.force := false; Flag.pfix := ""; Flag.find := false;
  Flag.verb := false; Flag.nw := false; Flag.nt := false;
  Flag.search := false; Flag.args := rest
|}.

Definition newline : string := String (ascii_of_nat 10) EmptyString.

(** [strings.Join]. *)
Definition Join (elems : list string) (sep : string) : string :=
  String.concat sep elems.

(** The names in use once the [-pref] hack has run. *)
Definition propNames (fl : Flag.t) : PropNames :=
  if negb (String.eqb (Flag.pfix fl) "")
  then fixupPref (Flag.pfix fl) mozillaNames
  else mozillaNames.

(** The pass-through flags: [args] and [count] after the three tests. *)
Definition flagArgs (fl : Flag.t) : list string * Z :=
  let a0 := (["firefox"%string], 0) in
  let a1 := if Flag.nw fl
            then (fst a0 ++ ["-new-window"%string], snd a0 + 1) else a0 in
  let a2 := if Flag.nt fl
            then (fst a1 ++ ["-new-tab"%string], snd a1 + 1) else a1 in
  if Flag.search fl
  then (fst a2 ++ ["-search"%string], snd a2 + 1) else a2.

(** [args] as handed to [encodeCommandLine]. *)
Definition allArgs (fl : Flag.t) : list string :=
  if Flag.search fl
  then fst (flagArgs fl) ++ [Join (Flag.args fl) " "]
  else fst (flagArgs fl) ++ Flag.args fl.

Definition windowLine (foxwin : Window) : string :=
  ("firefox window: " ++ HexString.of_Z foxwin ++ newline)%string.

Definition responseLine (resp : string) : string :=
  ("response: " ++ resp ++ newline)%string.

Definition main (fl : Flag.t) (connected : bool) (getwd : option string)
    (s : XServer) : list string * Outcome unit :=
  let nm := propNames fl in
  if negb connected then ([], Fatal "X connection:" s)
  else
    match findFirefox nm (Flag.user fl) (Flag.profile fl) (Flag.program fl) s with
    | Returned foxwin s1 =>
        if Z.eqb foxwin 0
        then ([], Fatal "can't find a running Firefox window." s1)
        else
          let out := if Flag.find fl || Flag.verb fl
                     then [windowLine foxwin] else [] in
          if Flag.find fl then (out, Returned tt s1)
          else
            let ac := flagArgs fl in
            if 1 <? snd ac
            then (out, Fatal ("conflicting arguments:" ++ Join (tl (fst ac)) " ") s1)
            else
              let cwd := match getwd with Some d => d | None => "/"%string end in
              let s2 := match getwd with
                        | Some _ => s1
                        | None => addLog "cannot get current directory:" s1
                        end in
              let enc := encodeCommandLine cwd (allArgs fl) in
              match submitCommand nm foxwin enc (Flag.force fl) s2 with
              | Returned resp s3 =>
                  (out ++ (if Flag.verb fl then [responseLine resp] else []),
                   Returned tt s3)
              | Fatal msg s3 => (out, Fatal msg s3)
              | Panicked s3 => (out, Panicked s3)
              | Blocked s3 => (out, Blocked s3)
              | OutOfFuel => (out, OutOfFuel)
              end
    | Fatal msg s1 => ([], Fatal msg s1)
    | Panicked s1 => ([], Panicked s1)
    | Blocked s1 => ([], Blocked s1)
    | OutOfFuel => ([], OutOfFuel)
    end.

(** Whether at least two of the pass-through flags are given. *)
Definition conflicting (fl : Flag.t) : bool :=
  (Flag.nw fl && Flag.nt fl) || (Flag.nw fl && Flag.search fl)
  || (Flag.nt fl && Flag.search fl).

(** Flags for user [u] with the given [-find] and pass-through flags. *)
Definition exampleFlags (find nw nt search : bool) (rest : list string)
    : Flag.t := {|
  Flag.user := "u"; Flag.profile := "default"; Flag.program := "firefox";
  Flag.force := false; Flag.pfix := ""; Flag.find := find;
  Flag.verb := false; Flag.nw := nw; Flag.nt := nt;
  Flag.search := search; Flag.args := rest
|}.

(** A Firefox window that answers the command line with "200 ok". *)
Definition answeringServer : XServer :=
  server [prop 10 "_MOZILLA_VERSION" "5.1"; prop 10 "_MOZILLA_USER" "u";
          prop 10 "_MOZILLA_PROFILE" xyzProfile;
          prop 10 "_MOZILLA_PROGRAM" "firefox"]
         [(1, [10]); (10, [])]
         [EnvSet 10 "_MOZILLA_RESPONSE" (list_byte_of_string "200 ok");
          respEvent mozillaNames 10 PropertyNewValue] [].

(** * Properties *)

(** ** Integers and the header *)

Lemma Z_of_byte_of_Z x : Z_of_byte (byte_of_Z x) = x mod 256.
Proof.
  unfold Z_of_byte, byte_of_Z.
  assert (Hr : 0 <= x mod 256 < 256) by (apply Z.mod_pos_bound; lia).
  destruct (Byte.of_N (Z.to_N (x mod 256))) as [b|] eqn:E.
  - apply Byte.to_of_N in E. rewrite E. rewrite Z2N.id; lia.
  - apply Byte.of_N_None_iff in E. lia.
Qed.

Lemma getUint32_putUint32 v b0 b1 b2 b3 :
  putUint32 v = [b0; b1; b2; b3] -> getUint32 b0 b1 b2 b3 = uint32 v.
Proof.
  unfold putUint32. intros H. injection H as <- <- <- <-.
  unfold getUint32, uint32. rewrite !Z_of_byte_of_Z.
  rewrite !Z.shiftr_div_pow2, !Z.shiftl_mul_pow2 by lia.
  change (2 ^ 32) with (256 * (256 * (256 * 256))).
  rewrite (Z.rem_mul_r v 256) by lia.
  rewrite (Z.rem_mul_r (v / 256) 256) by lia.
  rewrite (Z.rem_mul_r (v / 256 / 256) 256) by lia.
  rewrite !Z.div_div by lia.
  change (2 ^ 8) with 256. change (2 ^ 16) with (256 * 256).
  change (2 ^ 24) with (256 * 256 * 256). lia.
Qed.

Lemma length_writeUint32s arr :
  List.length (writeUint32s arr) = (4 * List.length arr)%nat.
Proof. induction arr as [|v arr IH]; simpl; lia. Qed.

Lemma header_writeUint32s arr rest k v :
  arr !! k = Some v -> header (writeUint32s arr ++ rest) k = Some (uint32 v).
Proof.
  revert k. induction arr as [|x arr IH]; intros k H; [discriminate|].
  destruct k as [|k].
  - injection H as ->. unfold header. simpl.
    f_equal. apply getUint32_putUint32. reflexivity.
  - simpl in H. specialize (IH k H). unfold header in *.
    replace (4 * S k)%nat with (4 + 4 * k)%nat by lia.
    exact IH.
Qed.

Lemma len_nonneg s : 0 <= len s.
Proof. unfold len. lia. Qed.

Lemma length_list_byte_of_string s :
  List.length (list_byte_of_string s) = String.length s.
Proof.
  unfold list_byte_of_string. rewrite length_map.
  induction s as [|c s IH]; simpl; congruence.
Qed.

(** The loop fills the zeroed tail of [arr] with the truncated offsets and
    appends the string table. *)
Lemma encodeArgs_closed args : forall i pre arenc off,
  List.length pre = S i ->
  encodeArgs i args (pre ++ replicate (List.length args) 0) arenc off
  = (pre ++ map uint32 (argOffsets off args),
     arenc ++ stringTable args,
     off + (lenl (stringTable args))).
Proof.
  induction args as [|a args IH]; intros i pre arenc off Hpre.
  - simpl. rewrite !app_nil_r. unfold lenl. simpl. do 2 f_equal. lia.
  - simpl encodeArgs. simpl replicate.
    replace (<[S i:=uint32 off]> (pre ++ 0 :: replicate (List.length args) 0))
      with ((pre ++ [uint32 off]) ++ replicate (List.length args) 0).
    2:{ rewrite <- Hpre. rewrite insert_app_r_alt by lia.
        rewrite Nat.sub_diag. simpl. rewrite <- app_assoc. reflexivity. }
    rewrite (IH (S i)) by (rewrite length_app; simpl; lia).
    simpl. rewrite <- !app_assoc. simpl.
    f_equal.
    unfold lenl, len. rewrite length_app. simpl.
    rewrite length_list_byte_of_string. lia.
Qed.

Lemma encodeCommandLine_closed pwd args :
  encodeCommandLine pwd args
  = writeUint32s (uint32 (lenl args) :: map uint32 (argOffsets (firstOffset pwd args) args))
    ++ list_byte_of_string pwd ++ x00 :: stringTable args.
Proof.
  unfold encodeCommandLine, addArgStr.
  change (replicate (S (List.length args)) 0) with (0 :: replicate (List.length args) 0).
  change (<[0%nat:=uint32 (lenl args)]> (0 :: replicate (List.length args) 0))
    with ([uint32 (lenl args)] ++ replicate (List.length args) 0).
  rewrite (encodeArgs_closed args 0 [uint32 (lenl args)]) by reflexivity.
  simpl app. rewrite <- app_assoc. simpl app.
  replace (lenl (uint32 (lenl args) :: replicate (List.length args) 0) * 4
           + (len pwd + 1)) with (firstOffset pwd args); [reflexivity|].
  unfold firstOffset, lenl. simpl List.length.
  rewrite length_replicate. lia.
Qed.

Lemma cstring_terminated l rest :
  ~ In x00 l -> cstring (l ++ x00 :: rest) = Some l.
Proof.
  induction l as [|b l IH]; intros Hnul; [reflexivity|].
  simpl. destruct (Byte.eqb b x00) eqn:E.
  - apply Byte.byte_dec_bl in E. subst b. exfalso. apply Hnul. now left.
  - rewrite IH; [reflexivity|]. intros Hin. apply Hnul. now right.
Qed.

Lemma stringTable_app l1 l2 :
  stringTable (l1 ++ l2) = stringTable l1 ++ stringTable l2.
Proof.
  induction l1 as [|a l1 IH]; [reflexivity|].
  simpl. rewrite IH, <- app_assoc. reflexivity.
Qed.

Lemma length_stringTable_cons a l :
  lenl (stringTable (a :: l)) = len a + 1 + lenl (stringTable l).
Proof.
  unfold lenl, len. simpl. rewrite length_app. simpl.
  rewrite length_list_byte_of_string. lia.
Qed.

(** The [j]-th offset is the start plus the table of the arguments
    before it. *)
Lemma argOffsets_lookup args : forall off j o,
  argOffsets off args !! j = Some o ->
  o = off + lenl (stringTable (take j args)).
Proof.
  induction args as [|a args IH]; intros off j o H; [destruct j; discriminate|].
  destruct j as [|j]; simpl in H.
  - injection H as <-. unfold lenl. simpl. lia.
  - apply IH in H. subst o. simpl take. rewrite length_stringTable_cons. lia.
Qed.

Lemma length_argOffsets args off :
  List.length (argOffsets off args) = List.length args.
Proof.
  revert off. induction args as [|a args IH]; intros off; simpl; [|rewrite IH]; reflexivity.
Qed.

Lemma argOffsets_lookup_Some args off j a :
  args !! j = Some a ->
  argOffsets off args !! j = Some (off + lenl (stringTable (take j args))).
Proof.
  intros Ha.
  destruct (argOffsets off args !! j) as [o|] eqn:E.
  - f_equal. eapply argOffsets_lookup; eassumption.
  - apply lookup_ge_None in E. rewrite length_argOffsets in E.
    apply lookup_lt_Some in Ha. lia.
Qed.

(** In a buffer [pre ++ stringTable args], the argument [j] starts
    [lenl (stringTable (take j args))] bytes after [pre]. *)
Lemma drop_to_argument pre args j a :
  args !! j = Some a ->
  drop (List.length pre + List.length (stringTable (take j args)))
       (pre ++ stringTable args)
  = list_byte_of_string a ++ x00 :: stringTable (drop (S j) args).
Proof.
  intros Ha.
  rewrite <- (take_drop j args) at 2.
  rewrite stringTable_app, app_assoc.
  rewrite <- length_app, drop_app_length.
  rewrite (drop_S _ _ _ Ha). reflexivity.
Qed.

Lemma uint32_small x : 0 <= x < 2 ^ 32 -> uint32 x = x.
Proof. intros H. unfold uint32. apply Z.mod_small. exact H. Qed.

Lemma firstOffset_bounds pwd args :
  lenl args < firstOffset pwd args.
Proof. unfold firstOffset, lenl, len. lia. Qed.

Lemma length_header_and_pwd pwd (hdr : list Z) :
  Z.of_nat (List.length (writeUint32s hdr ++ list_byte_of_string pwd ++ [x00]))
  = lenl hdr * 4 + (len pwd + 1).
Proof.
  rewrite !length_app, length_writeUint32s, length_list_byte_of_string.
  unfold lenl, len. simpl. lia.
Qed.

(** Reading back argument [i] of an encoded buffer whose offsets fit in
    32 bits. *)
Lemma nulFree_In s : nulFree s = true -> ~ In x00 (list_byte_of_string s).
Proof.
  unfold nulFree. rewrite forallb_forall. intros H Hin.
  specialize (H _ Hin). discriminate.
Qed.

Lemma offsetsFit_Forall pwd args :
  offsetsFit pwd args = true ->
  Forall (fun o => o < 2 ^ 32) (argOffsets (firstOffset pwd args) args).
Proof.
  unfold offsetsFit. rewrite forallb_forall, Forall_forall.
  intros H o Ho. apply Z.ltb_lt, H, list_elem_of_In, Ho.
Qed.

Lemma encoded_argument pwd args i a :
  forallb nulFree args = true ->
  Forall (fun o => o < 2 ^ 32) (argOffsets (firstOffset pwd args) args) ->
  args !! i = Some a ->
  let off := firstOffset pwd args + lenl (stringTable (take i args)) in
  header (encodeCommandLine pwd args) (S i) = Some off
  /\ cstringAt (encodeCommandLine pwd args) off = Some a
  /\ take (String.length a) (drop (Z.to_nat off) (encodeCommandLine pwd args))
     = list_byte_of_string a
  /\ drop (Z.to_nat off) (encodeCommandLine pwd args) !! String.length a = Some x00.
Proof.
  intros Hnul Hfit Ha off.
  pose proof (argOffsets_lookup_Some args (firstOffset pwd args) i a Ha) as Hoff.
  fold off in Hoff.
  assert (Hrange : 0 <= off < 2 ^ 32).
  { split.
    - unfold off, firstOffset, lenl, len. lia.
    - rewrite Forall_forall in Hfit. apply Hfit.
      apply list_elem_of_lookup. eauto. }
  assert (Hdrop : drop (Z.to_nat off) (encodeCommandLine pwd args)
                  = list_byte_of_string a ++ x00 :: stringTable (drop (S i) args)).
  { rewrite encodeCommandLine_closed.
    set (hdr := uint32 (lenl args) :: map uint32 (argOffsets (firstOffset pwd args) args)).
    replace (writeUint32s hdr ++ list_byte_of_string pwd ++ x00 :: stringTable args)
      with ((writeUint32s hdr ++ list_byte_of_string pwd ++ [x00]) ++ stringTable args)
      by (rewrite <- !app_assoc; reflexivity).
    rewrite <- (drop_to_argument
                  (writeUint32s hdr ++ list_byte_of_string pwd ++ [x00])
                  args i a Ha). f_equal.
    assert (Hlen : lenl hdr = lenl args + 1).
    { unfold hdr, lenl. simpl. rewrite length_map, length_argOffsets. lia. }
    pose proof (length_header_and_pwd pwd hdr) as Hl.
    unfold off, firstOffset. unfold lenl in *. lia. }
  split; [|split; [|split]].
  - rewrite encodeCommandLine_closed.
    erewrite header_writeUint32s.
    2:{ simpl. rewrite list_lookup_fmap, Hoff. reflexivity. }
    rewrite !(uint32_small off) by exact Hrange. reflexivity.
  - unfold cstringAt.
    destruct (Z.ltb_spec off 0) as [Hneg|_]; [lia|].
    rewrite Hdrop, cstring_terminated.
    + simpl. rewrite string_of_list_byte_of_string. reflexivity.
    + apply nulFree_In. rewrite forallb_forall in Hnul. apply Hnul.
      apply list_elem_of_In, list_elem_of_lookup. eauto.
  - rewrite Hdrop. rewrite <- length_list_byte_of_string.
    apply take_app_length.
  - rewrite Hdrop. rewrite <- length_list_byte_of_string.
    rewrite lookup_app_r by lia. rewrite Nat.sub_diag. reflexivity.
Qed.

Lemma encoded_argc pwd args :
  Forall (fun o => o < 2 ^ 32) (argOffsets (firstOffset pwd args) args) ->
  header (encodeCommandLine pwd args) 0 = Some (lenl args).
Proof.
  intros Hfit. rewrite encodeCommandLine_closed.
  erewrite header_writeUint32s by reflexivity.
  assert (Hn : 0 <= lenl args < 2 ^ 32); [|rewrite !(uint32_small _ Hn); reflexivity].
  split; [unfold lenl; lia|].
  destruct args as [|a args]; [reflexivity|].
  inversion Hfit as [|o os Ho _]; subst.
  pose proof (firstOffset_bounds pwd (a :: args)). lia.
Qed.

(** The decoder follows the header entry by entry. *)
Lemma decodeArgs_spec buf args :
  (forall i a, args !! i = Some a ->
     exists off, header buf (S i) = Some off /\ cstringAt buf off = Some a) ->
  forall n i, (i + n <= List.length args)%nat ->
    decodeArgs buf i n = Some (take n (drop i args)).
Proof.
  intros Hbuf n. induction n as [|n IH]; intros i Hle; [reflexivity|].
  destruct (args !! i) as [a|] eqn:Ha.
  2:{ apply lookup_ge_None in Ha. lia. }
  destruct (Hbuf i a Ha) as (off & Hh & Hc).
  simpl decodeArgs. rewrite Hh, Hc, (IH (S i)) by lia.
  rewrite (drop_S _ _ _ Ha). reflexivity.
Qed.

Lemma length_replicateString n c : String.length (replicateString n c) = n.
Proof. induction n as [|n IH]; simpl; congruence. Qed.

Lemma len_hugePwd : len hugePwd = 2 ^ 32 - 9.
Proof.
  unfold hugePwd, len. rewrite length_replicateString.
  apply Z2Nat.id. change (2 ^ 32) with 4294967296. lia.
Qed.

(** With a working directory of 2^32 - 9 bytes the only argument starts
    at byte 2^32, its header entry wraps to 0, and the reader finds the
    first byte of the header there. *)
Lemma decode_wrapped pwd :
  len pwd = 2 ^ 32 - 9 ->
  header (encodeCommandLine pwd ["a"%string]) 1 = Some 0
  /\ decodeCommandLine (encodeCommandLine pwd ["a"%string])
     = Some [String (ascii_of_byte x01) EmptyString].
Proof.
  intros Hlen. rewrite encodeCommandLine_closed.
  assert (Hoff : firstOffset pwd ["a"%string] = 2 ^ 32).
  { unfold firstOffset, lenl. simpl List.length. rewrite Hlen. reflexivity. }
  simpl argOffsets. rewrite Hoff.
  change (writeUint32s (uint32 (lenl ["a"%string]) :: map uint32 [2 ^ 32]))
    with [x01; x00; x00; x00; x00; x00; x00; x00].
  split; reflexivity.
Qed.

(** ** Claims about the encoder *)

(** C1 (as amended).  For every working directory [pwd] and every
    [argv] free of NUL bytes in which every argument starts at a byte
    offset below 2^32, reading [encodeCommandLine pwd argv] back per the
    documented layout recovers [argv]: header entry 0 is [len(argv)],
    header entry [i+1] is the absolute offset of argument [i] (header,
    working directory and earlier arguments before it), the bytes there
    are those of [argv[i]] followed by a 0 byte, and the decoder returns
    [argv]. *)
Theorem encodeCommandLine_roundtrip pwd argv :
  forallb nulFree argv = true ->
  offsetsFit pwd argv = true ->
  let buf := encodeCommandLine pwd argv in
  header buf 0 = Some (lenl argv)
  /\ (forall i a, argv !! i = Some a ->
        let off := firstOffset pwd argv + lenl (stringTable (take i argv)) in
        header buf (S i) = Some off
        /\ cstringAt buf off = Some a
        /\ take (String.length a) (drop (Z.to_nat off) buf) = list_byte_of_string a
        /\ drop (Z.to_nat off) buf !! String.length a = Some x00)
  /\ decodeCommandLine buf = Some argv.
Proof.
  intros Hnul Hfit buf. apply offsetsFit_Forall in Hfit.
  assert (Hargs : forall i a, argv !! i = Some a ->
            let off := firstOffset pwd argv + lenl (stringTable (take i argv)) in
            header buf (S i) = Some off
            /\ cstringAt buf off = Some a
            /\ take (String.length a) (drop (Z.to_nat off) buf) = list_byte_of_string a
            /\ drop (Z.to_nat off) buf !! String.length a = Some x00).
  { intros i a Ha. exact (encoded_argument pwd argv i a Hnul Hfit Ha). }
  split; [apply encoded_argc, Hfit|]. split; [exact Hargs|].
  unfold decodeCommandLine. fold buf.
  replace (header buf 0) with (Some (lenl argv))
    by (symmetry; apply encoded_argc, Hfit).
  unfold lenl. rewrite Nat2Z.id.
  rewrite (decodeArgs_spec buf argv) by
    (try lia; intros i a Ha; destruct (Hargs i a Ha) as (Hh & Hc & _); eauto).
  rewrite drop_0. f_equal. apply firstn_all.
Qed.

Lemma encodeCommandLine_roundtrip_witness :
  decodeCommandLine (encodeCommandLine "/" ["firefox"; "-new-window"]%string)
  = Some ["firefox"; "-new-window"]%string.
Proof.
  apply (encodeCommandLine_roundtrip "/" ["firefox"; "-new-window"]%string);
    reflexivity.
Defined.

(** C1 as stated, for every [pwd], fails: with a working directory of
    2^32 - 9 bytes the argument ["a"] starts at byte 2^32, header entry 1
    is 0, and decoding does not recover the argument. *)
Lemma encodeCommandLine_roundtrip_wraps :
  forallb nulFree ["a"%string] = true
  /\ header (encodeCommandLine hugePwd ["a"%string]) 1 = Some 0
  /\ firstOffset hugePwd ["a"%string] = 2 ^ 32
  /\ decodeCommandLine (encodeCommandLine hugePwd ["a"%string])
     <> Some ["a"%string].
Proof.
  destruct (decode_wrapped hugePwd len_hugePwd) as [Hh Hd].
  split; [reflexivity|]. split; [exact Hh|]. split.
  - unfold firstOffset, lenl. simpl List.length. rewrite len_hugePwd. reflexivity.
  - rewrite Hd. discriminate.
Qed.

(** C3 (as amended).  [encodeCommandLine("/", ["firefox", "-new-window"])]
    is the little-endian header [2, 14, 22] (12 bytes) followed by
    ["/\0firefox\0-new-window\0"]: the string table starts at byte 12
    with the working directory, the first argument at byte 14 and the
    second at byte 22, all counted from the start of the buffer. *)
Theorem encodeCommandLine_example :
  let buf := encodeCommandLine "/" ["firefox"; "-new-window"]%string in
  buf = writeUint32s [2; 14; 22]
        ++ list_byte_of_string "/" ++ [x00]
        ++ list_byte_of_string "firefox" ++ [x00]
        ++ list_byte_of_string "-new-window" ++ [x00]
  /\ List.length (writeUint32s [2; 14; 22]) = 12%nat
  /\ header buf 0 = Some 2
  /\ header buf 1 = Some 14
  /\ header buf 2 = Some 22
  /\ cstringAt buf 12 = Some "/"%string
  /\ cstringAt buf 14 = Some "firefox"%string
  /\ cstringAt buf 22 = Some "-new-window"%string.
Proof. vm_compute. repeat split; reflexivity. Qed.

(** C3 as stated fails: header entry 1 is 14, not 12. *)
Lemma encodeCommandLine_example_header_not_12 :
  ~ (header (encodeCommandLine "/" ["firefox"; "-new-window"]%string) 0 = Some 2
     /\ header (encodeCommandLine "/" ["firefox"; "-new-window"]%string) 1 = Some 12).
Proof. vm_compute. intros [_ H]. discriminate H. Qed.

(** ** Strings *)

Lemma string_length_app (a b : string) :
  String.length (a ++ b) = (String.length a + String.length b)%nat.
Proof. induction a as [|c a IH]; simpl; [reflexivity|rewrite IH; reflexivity]. Qed.

Lemma substring_all s : substring 0 (String.length s) s = s.
Proof. induction s as [|c s IH]; simpl; [reflexivity|rewrite IH; reflexivity]. Qed.

Lemma substring_app_r pre suf :
  substring (String.length pre) (String.length suf) (pre ++ suf) = suf.
Proof.
  induction pre as [|c pre IH]; simpl; [apply substring_all|exact IH].
Qed.

Lemma substring_split s : forall k, (k <= String.length s)%nat ->
  s = (substring 0 k s ++ substring k (String.length s - k) s)%string.
Proof.
  induction s as [|c s IH]; intros k Hk.
  - destruct k; reflexivity.
  - destruct k as [|k]; simpl.
    + rewrite substring_all. reflexivity.
    + simpl in Hk.
      change (String c s
              = String c (String.append (substring 0 k s)
                                        (substring k (String.length s - k) s))).
      f_equal. apply IH. lia.
Qed.

(** [strings.HasSuffix] holds exactly of the strings that end with the
    suffix. *)
Lemma HasSuffix_spec s suf :
  HasSuffix s suf = true <-> exists pre, s = (pre ++ suf)%string.
Proof.
  unfold HasSuffix. rewrite andb_true_iff, Nat.leb_le, String.eqb_eq. split.
  - intros [Hle Hsub].
    exists (substring 0 (String.length s - String.length suf) s).
    pose proof (substring_split s (String.length s - String.length suf)) as Hs.
    replace (String.length s - (String.length s - String.length suf))%nat
      with (String.length suf) in Hs by lia.
    rewrite Hsub in Hs. apply Hs. lia.
  - intros [pre ->]. rewrite string_length_app. split; [lia|].
    replace (String.length pre + String.length suf - String.length suf)%nat
      with (String.length pre) by lia.
    apply substring_app_r.
Qed.

Lemma string_of_list_byte_nil v :
  string_of_list_byte v = EmptyString <-> v = [].
Proof.
  split; [|intros ->; reflexivity].
  destruct v; [reflexivity|discriminate].
Qed.

(** ** The monad *)

Lemma bind_Returned {A B} (m : X A) (k : A -> X B) s b s' :
  bind m k s = Returned b s' <->
  exists a s1, m s = Returned a s1 /\ k a s1 = Returned b s'.
Proof.
  unfold bind. split.
  - destruct (m s) as [a s1| | | |]; try discriminate. eauto.
  - intros (a & s1 & -> & H). exact H.
Qed.

Lemma frame_refl s : frame s s.
Proof. repeat split. Qed.

Lemma frame_trans s1 s2 s3 : frame s1 s2 -> frame s2 s3 -> frame s1 s3.
Proof.
  unfold frame. intros (?&?&?&?) (?&?&?&?). repeat split; congruence.
Qed.

Lemma frame_addRequest r s : frame s (addRequest r s).
Proof. repeat split. Qed.

(** ** Property matching *)

(** [propMatch] reads the property once and never fails. *)
Lemma propMatch_eq win prop val s :
  propMatch win prop val s
  = Returned match props s !! (win, prop) with
             | None => false
             | Some v => String.eqb val "" || String.eqb (string_of_list_byte v) val
             end
             (addRequest (ReqGetProperty win prop) s).
Proof.
  unfold propMatch, bind, GetProperty.
  destruct (props s !! (win, prop)); reflexivity.
Qed.

(** [profileMatch], branch by branch. *)
Lemma profileMatch_eq win prop val s :
  profileMatch win prop val s
  = let s1 := addRequest (ReqGetProperty win prop) s in
    match props s !! (win, prop) with
    | None => Returned false s1
    | Some v =>
        let sv := string_of_list_byte v in
        if String.eqb val "" || String.eqb sv val then Returned true s1
        else match sv with
             | EmptyString => Panicked s1
             | String c _ =>
                 if Ascii.eqb c "/" then
                   match val with
                   | EmptyString => Panicked s1
                   | String d _ =>
                       Returned (negb (Ascii.eqb d "/")
                                 && HasSuffix sv ("." ++ val)) s1
                   end
                 else Returned false s1
             end
    end.
Proof.
  unfold profileMatch, bind, GetProperty. simpl.
  destruct (props s !! (win, prop)) as [v|]; [|reflexivity].
  destruct (String.eqb val "" || String.eqb (string_of_list_byte v) val);
    [reflexivity|].
  destruct (string_of_list_byte v) as [|c sv']; [reflexivity|].
  unfold index at 1. simpl.
  destruct (Ascii.eqb c "/"); [|reflexivity].
  destruct val as [|d val']; [reflexivity|].
  unfold index. simpl.
  destruct (negb (Ascii.eqb d "/") && HasSuffix (String c sv') ("." ++ String d val'));
    reflexivity.
Qed.

(** C5 (as amended).  On a window whose profile property is present,
    [profileMatch] succeeds exactly when the filter is empty, or equals
    the property, or the property starts with "/" while the filter does
    not and the property ends with "." followed by the filter (the
    dot-suffix form only; ending with "/" followed by the filter is not
    enough).  The property "/home/u/.mozilla/firefox/xyz.default" matches
    the filter "default", does not match "xyz.default", and matches the
    full path. *)
Theorem profileMatch_rule s win prop val v :
  props s !! (win, prop) = Some v ->
  (returnedValue (profileMatch win prop val s) = Some true
   <-> profileRule (string_of_list_byte v) val)
  /\ returnedValue (profileMatch 10 "_MOZILLA_PROFILE" "default" xyzServer)
     = Some true
  /\ returnedValue (profileMatch 10 "_MOZILLA_PROFILE" "xyz.default" xyzServer)
     = Some false
  /\ returnedValue (profileMatch 10 "_MOZILLA_PROFILE" xyzProfile xyzServer)
     = Some true.
Proof.
  intros Hv. split; [|repeat split; vm_compute; reflexivity].
  rewrite profileMatch_eq, Hv. cbv zeta. unfold profileRule, startsWithSlash.
  set (sv := string_of_list_byte v).
  destruct (String.eqb_spec val "") as [->|Hval].
  { simpl. split; auto. }
  destruct (String.eqb_spec sv val) as [->|Hne].
  { simpl. split; auto. }
  simpl orb. cbv iota.
  destruct sv as [|c sv'].
  { simpl. split; [discriminate|].
    intros [H|[H|[[rest H] _]]]; congruence || discriminate. }
  destruct (Ascii.eqb_spec c "/") as [->|Hc].
  2:{ simpl. split; [discriminate|].
      intros [H|[H|[[rest H] _]]]; congruence. }
  destruct val as [|d val']; [congruence|].
  simpl returnedValue.
  split.
  - intros H. injection H as H. apply andb_true_iff in H as [Hd Hs].
    right. right. split; [eauto|]. split.
    + intros [rest Hr]. injection Hr as -> _.
      rewrite Ascii.eqb_refl in Hd. discriminate.
    + apply HasSuffix_spec in Hs. exact Hs.
  - intros [H|[H|(_ & Hd & Hs)]]; try congruence.
    f_equal. apply andb_true_iff. split.
    + destruct (Ascii.eqb_spec d "/") as [->|]; [|reflexivity].
      exfalso. apply Hd. eauto.
    + apply HasSuffix_spec. exact Hs.
Qed.

Lemma profileMatch_rule_witness :
  returnedValue (profileMatch 10 "_MOZILLA_PROFILE" "default" xyzServer)
  = Some true.
Proof.
  apply (profileMatch_rule xyzServer 10 "_MOZILLA_PROFILE" "default"
           (list_byte_of_string xyzProfile)).
  vm_compute. reflexivity.
Defined.

(** C5 as stated fails: the profile path "/home/u/profiles/default"
    ends with "/" followed by the filter "default", its final path
    segment equals the filter, and [profileMatch] returns false. *)
Lemma profileMatch_path_suffix_rejected :
  propertyOf plainDirServer 10 "_MOZILLA_PROFILE"
  = Some ("/home/u/profiles" ++ "/" ++ "default")%string
  /\ returnedValue (profileMatch 10 "_MOZILLA_PROFILE" "default" plainDirServer)
     = Some false.
Proof. split; vm_compute; reflexivity. Qed.

(** C10.  [profileMatch] panics exactly when the profile property is
    present with the empty string as its value and the filter is not
    empty: it then indexes [sv[0]] of the empty value.  In every other
    case it returns. *)
Theorem profileMatch_panics_iff s win prop val :
  profileMatch win prop val s
  = Panicked (addRequest (ReqGetProperty win prop) s)
  <-> (props s !! (win, prop) = Some [] /\ String.eqb val "" = false).
Proof.
  rewrite profileMatch_eq. cbv zeta. split.
  - destruct (props s !! (win, prop)) as [v|]; [|discriminate].
    destruct (String.eqb_spec val "") as [->|Hval]; [discriminate|].
    destruct (String.eqb (string_of_list_byte v) val); [discriminate|].
    simpl orb. cbv iota.
    destruct (string_of_list_byte v) as [|c sv'] eqn:E.
    + apply string_of_list_byte_nil in E. subst v. auto.
    + destruct (Ascii.eqb c "/"); [|discriminate].
      destruct val; [congruence|discriminate].
  - intros [-> Hval]. rewrite Hval.
    destruct val as [|d val']; [discriminate|]. reflexivity.
Qed.

Lemma profileMatch_panics_witness :
  profileMatch 10 "_MOZILLA_PROFILE" "default" emptyProfileServer
  = Panicked (addRequest (ReqGetProperty 10 "_MOZILLA_PROFILE") emptyProfileServer).
Proof.
  apply (profileMatch_panics_iff emptyProfileServer 10 "_MOZILLA_PROFILE" "default").
  split; vm_compute; reflexivity.
Defined.

(** C4, evaluated where it fails.  On a window that has no user property
    the empty user filter does not match: [propMatch] returns false
    before it looks at the filter, and so does [profileMatch] for an
    absent profile property.  [findFirefox] then skips a window whose
    other properties all match. *)
Theorem empty_filter_absent_property :
  props noUserServer !! (10, "_MOZILLA_USER"%string) = None
  /\ returnedValue (propMatch 10 "_MOZILLA_USER" "" noUserServer) = Some false
  /\ returnedValue (profileMatch 10 "_MOZILLA_PROFILE" "" noProfileServer)
     = Some false
  /\ returnedValue (findFirefox mozillaNames "" "default" "firefox" noUserServer)
     = Some 0.
Proof. repeat split; vm_compute; reflexivity. Qed.

(** ** The window matcher *)

Lemma propertyOf_frame s s' win prop :
  frame s s' -> propertyOf s' win prop = propertyOf s win prop.
Proof. intros (Hp & _). unfold propertyOf. rewrite Hp. reflexivity. Qed.

Lemma clientScan_returns cs win s :
  exists w s', clientScan cs win s = Returned w s' /\ frame s s'.
Proof.
  revert s. induction cs as [|c cs IH]; intros s.
  - exists win, s. split; [reflexivity|apply frame_refl].
  - simpl. unfold bind, GetProperty.
    destruct (props s !! (c, "WM_STATE"%string)).
    + eexists _, _. split; [reflexivity|apply frame_addRequest].
    + destruct (IH (addRequest (ReqGetProperty c "WM_STATE") s)) as (w & s' & E & F).
      exists w, s'. split; [exact E|].
      eapply frame_trans; [apply frame_addRequest|exact F].
Qed.


Lemma ClientWindow_inv win s w s' :
  ClientWindow win s = Returned w s' -> frame s s'.
Proof.
  unfold ClientWindow, bind, QueryTree.
  destruct (tree s !! win) as [cs|] eqn:Hcs; [|discriminate].
  destruct (clientScan_returns cs win (addRequest (ReqQueryTree win) s))
    as (w0 & s0 & E & F).
  rewrite E. intros H. injection H as <- <-.
  eapply frame_trans; [apply frame_addRequest|exact F].
Qed.

Lemma propMatch_inv win prop val s b s' :
  propMatch win prop val s = Returned b s' -> frame s s'.
Proof.
  rewrite propMatch_eq. intros H. injection H as _ <-. apply frame_addRequest.
Qed.

Lemma profileMatch_inv win prop val s b s' :
  profileMatch win prop val s = Returned b s' -> frame s s'.
Proof.
  rewrite profileMatch_eq. cbv zeta. intros H.
  assert (s' = addRequest (ReqGetProperty win prop) s) as ->;
    [|apply frame_addRequest].
  destruct (props s !! (win, prop)) as [v|]; [|congruence].
  destruct (String.eqb val "" || String.eqb (string_of_list_byte v) val);
    [congruence|].
  destruct (string_of_list_byte v) as [|c sv]; [discriminate|].
  destruct (Ascii.eqb c "/"); [|congruence].
  destruct val; [discriminate|congruence].
Qed.

(** What a scan of the children returns: a window of the exact version,
    or the version it was given, or a wrong version it has seen. *)
Lemma findScan_inv nm user profile program cs : forall wrongver s r s',
  findScan nm cs user profile program wrongver s = Returned r s' ->
  frame s s'
  /\ match r with
     | inl w => propertyOf s w (versProp nm) = Some firefoxVersion
     | inr wv =>
         wv = wrongver
         \/ (wv <> firefoxVersion
             /\ exists c, propertyOf s c (versProp nm) = Some wv)
     end.
Proof.
  induction cs as [|c cs IH]; intros wrongver s r s' H.
  - injection H as <- <-. split; [apply frame_refl|now left].
  - simpl in H.
    apply bind_Returned in H as (win & s1 & Hcw & H).
    apply ClientWindow_inv in Hcw.
    apply bind_Returned in H as (pv & s2 & Hget & H).
    unfold GetProperty in Hget. injection Hget as <- <-.
    assert (F2 : frame s (addRequest (ReqGetProperty win (versProp nm)) s1))
      by (eapply frame_trans; [exact Hcw|apply frame_addRequest]).
    assert (Hver : propertyOf s win (versProp nm)
                   = option_map string_of_list_byte (props s1 !! (win, versProp nm)))
      by (rewrite <- (propertyOf_frame s s1) by exact Hcw; reflexivity).
    destruct (props s1 !! (win, versProp nm)) as [v|].
    2:{ apply IH in H as [F Hr]. split; [eapply frame_trans; eassumption|].
        destruct r as [w|wv]; [|destruct Hr as [Hr|(Hne & c0 & Hc0)]].
        - rewrite <- (propertyOf_frame _ _ _ _ F2). exact Hr.
        - now left.
        - right. split; [exact Hne|]. exists c0.
          rewrite <- (propertyOf_frame _ _ _ _ F2). exact Hc0. }
    simpl in Hver.
    destruct (String.eqb_spec (string_of_list_byte v) firefoxVersion) as [Hv|Hv];
      simpl negb in H; cbv iota in H.
    + apply bind_Returned in H as (m1 & s3 & H1 & H).
      apply propMatch_inv in H1.
      apply bind_Returned in H as (m2 & s4 & H2 & H).
      assert (F4 : frame s3 s4).
      { destruct m1; [exact (profileMatch_inv _ _ _ _ _ _ H2)|].
        injection H2 as _ <-. apply frame_refl. }
      apply bind_Returned in H as (m3 & s5 & H3 & H).
      assert (F5 : frame s4 s5).
      { destruct m2; [exact (propMatch_inv _ _ _ _ _ _ H3)|].
        injection H3 as _ <-. apply frame_refl. }
      assert (F : frame s s5)
        by exact (frame_trans _ _ _
                    (frame_trans _ _ _ (frame_trans _ _ _ F2 H1) F4) F5).
      destruct m3.
      * injection H as <- <-. split; [exact F|]. rewrite Hver, Hv. reflexivity.
      * apply IH in H as [F' Hr]. split; [eapply frame_trans; eassumption|].
        destruct r as [w|wv]; [|destruct Hr as [Hr|(Hne & c0 & Hc0)]].
        -- rewrite <- (propertyOf_frame _ _ _ _ F). exact Hr.
        -- now left.
        -- right. split; [exact Hne|]. exists c0.
           rewrite <- (propertyOf_frame _ _ _ _ F). exact Hc0.
    + apply IH in H as [F Hr]. split; [eapply frame_trans; eassumption|].
      destruct r as [w|wv]; [|destruct Hr as [Hr|(Hne & c0 & Hc0)]].
      * rewrite <- (propertyOf_frame _ _ _ _ F2). exact Hr.
      * subst wv. right. split; [exact Hv|]. exists win. exact Hver.
      * right. split; [exact Hne|]. exists c0.
        rewrite <- (propertyOf_frame _ _ _ _ F2). exact Hc0.
Qed.




(** ** The event wait *)

(** A wait ends at the first decisive step: the changes made before it
    are in the store, the steps after it are still to come. *)
Lemma dispatch_decisive win patom pre d rest : forall s,
  quiet win patom pre = true ->
  decisive win patom d = true ->
  dispatch win patom (pre ++ d :: rest) s
  = Returned (waitResult d) (setScript rest (setProps (applyEnvs pre) s)).
Proof.
  induction pre as [|st pre IH]; intros s Hq Hd.
  - destruct s. simpl.
    destruct d as [w p v|w p|w ev|w| |]; simpl in Hd; try discriminate.
    + rewrite Hd. reflexivity.
    + rewrite Hd. reflexivity.
    + reflexivity.
  - simpl in Hq. apply andb_true_iff in Hq as [Hst Hq].
    apply negb_true_iff in Hst.
    destruct st as [w p v|w p|w ev|w| |]; simpl in Hst; try discriminate;
      simpl; try rewrite Hst; rewrite (IH _ Hq Hd); destruct s; reflexivity.
Qed.

(** Without a decisive step the wait never ends. *)
Lemma dispatch_quiet win patom steps : forall s,
  quiet win patom steps = true ->
  dispatch win patom steps s
  = Blocked (setScript [] (setProps (applyEnvs steps) s)).
Proof.
  induction steps as [|st steps IH]; intros s Hq.
  - destruct s. reflexivity.
  - simpl in Hq. apply andb_true_iff in Hq as [Hst Hq].
    apply negb_true_iff in Hst.
    destruct st as [w p v|w p|w ev|w| |]; simpl in Hst; try discriminate;
      simpl; try rewrite Hst; rewrite (IH _ Hq); destruct s; reflexivity.
Qed.

(** Every script is quiet up to its first decisive step, if it has one. *)
Lemma script_split win patom steps :
  quiet win patom steps = true
  \/ exists pre d rest,
       steps = pre ++ d :: rest
       /\ quiet win patom pre = true /\ decisive win patom d = true.
Proof.
  induction steps as [|st steps IH]; [now left|].
  destruct (decisive win patom st) eqn:E.
  - right. exists [], st, steps. repeat split. exact E.
  - destruct IH as [Hq|(pre & d & rest & -> & Hq & Hd)].
    + left. simpl. rewrite E. exact Hq.
    + right. exists (st :: pre), d, rest. repeat split; [|exact Hd].
      simpl. rewrite E. exact Hq.
Qed.

(** A wait issues no request, and when it returns the script is shorter. *)
Lemma waitForPropChange_inv win patom s r s' :
  waitForPropChange win patom s = Returned r s' ->
  requests s' = requests s /\ writeFaults s' = writeFaults s
  /\ logged s' = logged s
  /\ (List.length (script s') < List.length (script s))%nat.
Proof.
  unfold waitForPropChange.
  destruct (script_split win patom (script s))
    as [Hq|(pre & d & rest & Hs & Hq & Hd)].
  - rewrite dispatch_quiet by exact Hq. discriminate.
  - rewrite Hs, dispatch_decisive by assumption.
    intros H. injection H as _ <-. simpl. repeat split.
    rewrite length_app. simpl. lia.
Qed.

Lemma waitForPropChange_outcome win patom s :
  (exists r s', waitForPropChange win patom s = Returned r s')
  \/ (exists s', waitForPropChange win patom s = Blocked s'
                 /\ requests s' = requests s).
Proof.
  unfold waitForPropChange.
  destruct (script_split win patom (script s))
    as [Hq|(pre & d & rest & Hs & Hq & Hd)].
  - right. rewrite dispatch_quiet by exact Hq. eexists. split; reflexivity.
  - left. rewrite Hs, dispatch_decisive by assumption. eauto.
Qed.

(** ** The lock *)

(** One attempt, request by request. *)
Lemma tryLock_eq nm win s :
  tryLock nm win s
  = let s1 := addRequest (ReqGetProperty win (lockProp nm)) (addRequest ReqGrab s) in
    let leave := fun s2 => addRequest ReqSync (addRequest ReqUngrab s2) in
    if lockFree nm win s then
      let s2 := addRequest (ReqChangeProp win (lockProp nm) "STRING" lockValue) s1 in
      match writeFaults s with
      | true :: wf => Returned false (leave (setWriteFaults wf s2))
      | false :: wf =>
          Returned true
            (leave (setProps (insert (win, lockProp nm) lockValue)
                             (setWriteFaults wf s2)))
      | [] =>
          Returned true
            (leave (setProps (insert (win, lockProp nm) lockValue) s2))
      end
    else Returned false (leave s1).
Proof.
  unfold tryLock, lockFree, bind, Grab, GetProperty, ChangeProp, Ungrab, Sync, ret.
  destruct s as [ps tr rw sc wfs lf rq lg]. simpl.
  destruct (ps !! (win, lockProp nm)) as [v|].
  - destruct (Z.eqb (lenl v) 0); [|reflexivity].
    destruct wfs as [|[] wf]; reflexivity.
  - destruct wfs as [|[] wf]; reflexivity.
Qed.

Lemma tryLock_returns nm win s :
  exists res s1,
    tryLock nm win s = Returned res s1
    /\ script s1 = script s /\ logged s1 = logged s.
Proof.
  rewrite tryLock_eq. cbv zeta.
  destruct (lockFree nm win s); [|eexists _, _; repeat split].
  destruct (writeFaults s) as [|[] wf]; eexists _, _; repeat split.
Qed.

(** One more turn than the script is long is as good as any more. *)
Lemma lockFirefoxLoop_enough nm win : forall fuel1 fuel2 s,
  (List.length (script s) < fuel1)%nat ->
  (List.length (script s) < fuel2)%nat ->
  lockFirefoxLoop nm fuel1 win s = lockFirefoxLoop nm fuel2 win s.
Proof.
  induction fuel1 as [|fuel1 IH]; intros fuel2 s H1 H2; [lia|].
  destruct fuel2 as [|fuel2]; [lia|].
  simpl. unfold bind at 1 3.
  destruct (tryLock_returns nm win s) as (res & s1 & -> & Hsc & _).
  destruct res; [reflexivity|].
  unfold bind.
  destruct (waitForPropChange win (lockatom nm) s1) as [r s2| | | |] eqn:E;
    try reflexivity.
  apply waitForPropChange_inv in E as (_ & _ & _ & Hlen).
  rewrite Hsc in Hlen.
  destruct (negb (snd r)); [reflexivity|].
  apply IH; lia.
Qed.

(** The loop of [lockFirefox]: try; on failure wait for a change of the
    lock property; abort if the window went away; otherwise start over. *)
Lemma lockFirefox_unfold nm win s :
  lockFirefox nm win s
  = (res <- tryLock nm win ;;
     if res then ret tt
     else
       r <- waitForPropChange win (lockProp nm) ;;
       if negb (snd r) then logFatal "Firefox window disappeared"
       else lockFirefox nm win) s.
Proof.
  unfold lockFirefox at 1. simpl. unfold bind at 1 3.
  destruct (tryLock_returns nm win s) as (res & s1 & -> & Hsc & _).
  destruct res; [reflexivity|].
  unfold bind, lockatom.
  destruct (waitForPropChange win (lockProp nm) s1) as [r s2| | | |] eqn:E;
    try reflexivity.
  apply waitForPropChange_inv in E as (_ & _ & _ & Hlen).
  rewrite Hsc in Hlen.
  destruct (negb (snd r)); [reflexivity|].
  unfold lockFirefox. apply lockFirefoxLoop_enough; lia.
Qed.







(** ** The response *)

Lemma getResponse_decisive nm win s pre d rest :
  script s = pre ++ d :: rest ->
  quiet win (respProp nm) pre = true ->
  decisive win (respProp nm) d = true ->
  getResponse nm win s
  = responseAt nm win d (setScript rest (setProps (applyEnvs pre) s)).
Proof.
  intros Hs Hq Hd. unfold getResponse, bind, waitForPropChange, responseatom.
  rewrite Hs, dispatch_decisive by assumption.
  destruct d as [w p v|w p|w [a []]|w| |]; try discriminate; try reflexivity.
  unfold responseAt, GetProperty. simpl.
  destruct (applyEnvs pre (props s) !! (win, respProp nm)); reflexivity.
Qed.

Lemma getResponse_quiet nm win s :
  quiet win (respProp nm) (script s) = true ->
  getResponse nm win s
  = Blocked (setScript [] (setProps (applyEnvs (script s)) s)).
Proof.
  intros Hq. unfold getResponse, bind, waitForPropChange, responseatom.
  rewrite dispatch_quiet by exact Hq. reflexivity.
Qed.

(** What [getResponse] leaves behind when it returns. *)
Lemma getResponse_inv nm win s resp s' :
  getResponse nm win s = Returned resp s' ->
  writeFaults s' = writeFaults s
  /\ (requests s' = requests s
      \/ requests s' = ReqGetProperty win (respProp nm) :: requests s).
Proof.
  destruct (script_split win (respProp nm) (script s))
    as [Hq|(pre & d & rest & Hs & Hq & Hd)].
  - rewrite getResponse_quiet by exact Hq. discriminate.
  - rewrite (getResponse_decisive nm win s pre d rest) by assumption.
    unfold responseAt.
    destruct d as [w p v|w p|w [a []]|w| |]; intros H; injection H as _ <-;
      simpl; auto.
Qed.



(** ** The session *)

(** The session from the write of the command line on. *)
Lemma submitCommand_from_write nm win cmd force s s0 s1 :
  Listen win s = Returned true s0 ->
  (if negb force then lockFirefox nm win else ret tt) s0 = Returned tt s1 ->
  submitCommand nm win cmd force s
  = (ok <- ChangeProp win (cmdlProp nm) "STRING" cmd ;;
     (if negb ok
      then unlockFirefox nm win ;;; logFatal "command line change:"
      else ret tt) ;;;
     resp <- getResponse nm win ;;
     unlockFirefox nm win ;;;
     Sync ;;;
     ret resp) s1.
Proof.
  intros Hl Hlock. unfold submitCommand. unfold bind at 1. rewrite Hl.
  simpl negb. cbv iota. unfold bind at 1. unfold ret at 1.
  unfold bind at 1. rewrite Hlock. reflexivity.
Qed.

(** C7.  With [force] the session issues no lock attempt: its requests
    are the listen, the write of the command line, at most one read of
    the response, the deletion of the lock property and the sync.  When
    it returns, and also when it aborts because the command line could
    not be written, the lock property is absent from the window,
    whatever it was before.  The only other abort is a failed listen,
    before any other request. *)
Theorem submitCommand_force nm win cmd s :
  (forall resp s',
     submitCommand nm win cmd true s = Returned resp s' ->
     props s' !! (win, lockProp nm) = None
     /\ attempts s' = attempts s
     /\ exists mid,
          requests s'
          = ReqSync :: ReqDeleteProperty win (lockProp nm) :: mid
            ++ [ReqChangeProp win (cmdlProp nm) "STRING" cmd; ReqListen win]
            ++ requests s
          /\ (mid = [] \/ mid = [ReqGetProperty win (respProp nm)]))
  /\ (forall msg s',
        submitCommand nm win cmd true s = Fatal msg s' ->
        (listenFault s = true /\ s' = addRequest (ReqListen win) s)
        \/ (props s' !! (win, lockProp nm) = None
            /\ requests s'
               = ReqDeleteProperty win (lockProp nm)
                 :: ReqChangeProp win (cmdlProp nm) "STRING" cmd
                 :: ReqListen win :: requests s)).
Proof.
  assert (Hfault : listenFault s = true ->
            submitCommand nm win cmd true s
            = Fatal "listen error:" (addRequest (ReqListen win) s)).
  { intros Hf. unfold submitCommand, bind, Listen. rewrite Hf. reflexivity. }
  assert (Hok : listenFault s = false ->
            submitCommand nm win cmd true s
            = (ok <- ChangeProp win (cmdlProp nm) "STRING" cmd ;;
               (if negb ok
                then unlockFirefox nm win ;;; logFatal "command line change:"
                else ret tt) ;;;
               resp <- getResponse nm win ;;
               unlockFirefox nm win ;;;
               Sync ;;;
               ret resp) (addRequest (ReqListen win) s)).
  { intros Hf.
    apply (submitCommand_from_write nm win cmd true s (addRequest (ReqListen win) s));
      [|reflexivity].
    unfold Listen. rewrite Hf. reflexivity. }
  destruct (listenFault s) eqn:Hf.
  { rewrite Hfault by reflexivity. split; [discriminate|].
    intros msg s' H. injection H as _ <-. left. auto. }
  rewrite Hok by reflexivity. clear Hfault Hok.
  set (s0 := addRequest (ReqListen win) s).
  set (s1 := addRequest (ReqChangeProp win (cmdlProp nm) "STRING" cmd) s0).
  assert (Hafter : forall s2,
            requests s2 = requests s1 ->
            (forall resp s',
               (resp <- getResponse nm win ;;
                unlockFirefox nm win ;;; Sync ;;; ret resp) s2 = Returned resp s' ->
               props s' !! (win, lockProp nm) = None
               /\ attempts s' = attempts s
               /\ exists mid,
                    requests s'
                    = ReqSync :: ReqDeleteProperty win (lockProp nm) :: mid
                      ++ [ReqChangeProp win (cmdlProp nm) "STRING" cmd; ReqListen win]
                      ++ requests s
                    /\ (mid = [] \/ mid = [ReqGetProperty win (respProp nm)]))
            /\ (forall msg s',
                  (resp <- getResponse nm win ;;
                   unlockFirefox nm win ;;; Sync ;;; ret resp) s2 <> Fatal msg s')).
  { intros s2 Hreq. split.
    - intros resp s' H.
      apply bind_Returned in H as (r & s3 & Hresp & H).
      apply getResponse_inv in Hresp as [_ Hr3].
      unfold bind, unlockFirefox, DeleteProperty, Sync, ret in H.
      injection H as _ <-. split; [simpl; apply lookup_delete_eq|].
      rewrite Hreq in Hr3.
      destruct Hr3 as [Hr3|Hr3].
      + split; [unfold attempts; simpl; rewrite Hr3; reflexivity|].
        exists []. split; [simpl; rewrite Hr3; reflexivity|now left].
      + split; [unfold attempts; simpl; rewrite Hr3; reflexivity|].
        exists [ReqGetProperty win (respProp nm)].
        split; [simpl; rewrite Hr3; reflexivity|now right].
    - intros msg s' H. unfold bind at 1 in H.
      destruct (getResponse nm win s2) as [r s3| | | |] eqn:E; try discriminate.
      destruct (script_split win (respProp nm) (script s2))
        as [Hq|(pre & d & rest & Hs & Hq & Hd)].
      + rewrite getResponse_quiet in E by exact Hq. discriminate.
      + rewrite (getResponse_decisive nm win s2 pre d rest) in E by assumption.
        unfold responseAt in E.
        destruct d as [w p v|w p|w [a []]|w| |]; discriminate. }
  assert (Hwrite :
    (ok <- ChangeProp win (cmdlProp nm) "STRING" cmd ;;
     (if negb ok
      then unlockFirefox nm win ;;; logFatal "command line change:"
      else ret tt) ;;;
     resp <- getResponse nm win ;;
     unlockFirefox nm win ;;; Sync ;;; ret resp) s0
    = match writeFaults s1 with
      | true :: wf =>
          Fatal "command line change:"
            (setProps (delete (win, lockProp nm))
               (addRequest (ReqDeleteProperty win (lockProp nm))
                  (setWriteFaults wf s1)))
      | false :: wf =>
          (resp <- getResponse nm win ;;
           unlockFirefox nm win ;;; Sync ;;; ret resp)
            (setProps (insert (win, cmdlProp nm) cmd) (setWriteFaults wf s1))
      | [] =>
          (resp <- getResponse nm win ;;
           unlockFirefox nm win ;;; Sync ;;; ret resp)
            (setProps (insert (win, cmdlProp nm) cmd) s1)
      end).
  { unfold bind at 1. unfold ChangeProp. fold s1.
    destruct (writeFaults s1) as [|[] wf]; reflexivity. }
  rewrite Hwrite. clear Hwrite.
  destruct (writeFaults s1) as [|[] wf] eqn:Hwf.
  - set (s2 := setProps (insert (win, cmdlProp nm) cmd) s1).
    assert (H2 : requests s2 = requests s1) by reflexivity.
    destruct (Hafter s2 H2) as [HR HF].
    split; [exact HR|]. intros msg s' H. exfalso. exact (HF msg s' H).
  - split; [discriminate|]. intros msg s' H.
    injection H as _ <-. right. split; [simpl; apply lookup_delete_eq|reflexivity].
  - set (s2 := setProps (insert (win, cmdlProp nm) cmd) (setWriteFaults wf s1)).
    assert (H2 : requests s2 = requests s1) by reflexivity.
    destruct (Hafter s2 H2) as [HR HF].
    split; [exact HR|]. intros msg s' H. exfalso. exact (HF msg s' H).
Qed.

Lemma submitCommand_force_witness :
  props (endState (submitCommand mozillaNames 10 (list_byte_of_string "cmd")
                     true staleLockServer) staleLockServer)
    !! (10, "_MOZILLA_LOCK"%string) = None.
Proof.
  refine (proj1 (proj1 (submitCommand_force mozillaNames 10 _ staleLockServer)
                   "200 ok"%string _ _)).
  vm_compute. reflexivity.
Defined.




(** The diagnostic is also printed when a window of the exact version is
    present but fails an identity filter, next to a window of another
    version: no window is returned, and the last wrong version seen is
    named. *)
Example findFirefox_diagnostic_with_other_profile :
  let s := server [prop 10 "_MOZILLA_VERSION" "5.1"; prop 10 "_MOZILLA_USER" "u";
                   prop 10 "_MOZILLA_PROFILE" "work";
                   prop 10 "_MOZILLA_PROGRAM" "firefox";
                   prop 11 "_MOZILLA_VERSION" "6.0"]
                  [(1, [10; 11]); (10, []); (11, [])] [] [] in
  returnedValue (findFirefox mozillaNames "u" "default" "firefox" s) = Some 0
  /\ option_map logged
       (finalState (findFirefox mozillaNames "u" "default" "firefox" s))
     = Some ["found a protocol 6.0 Firefox window but no 5.1 one."%string].
Proof. split; vm_compute; reflexivity. Qed.

(** * Further properties *)

(** ** The encoder *)

Lemma tableSize_length args : lenl (stringTable args) = tableSize args.
Proof.
  induction args as [|a args IH]; [reflexivity|].
  rewrite length_stringTable_cons. simpl. rewrite IH. lia.
Qed.

Lemma trueOffset_firstOffset pwd args i :
  trueOffset pwd args i = firstOffset pwd args + lenl (stringTable (take i args)).
Proof. unfold trueOffset, firstOffset. rewrite tableSize_length. lia. Qed.

(** The bytes of the buffer from the true offset of argument [i] on. *)
Lemma drop_trueOffset pwd args i a :
  args !! i = Some a ->
  drop (Z.to_nat (trueOffset pwd args i)) (encodeCommandLine pwd args)
  = list_byte_of_string a ++ x00 :: stringTable (drop (S i) args).
Proof.
  intros Ha. rewrite encodeCommandLine_closed.
  set (hdr := uint32 (lenl args) :: map uint32 (argOffsets (firstOffset pwd args) args)).
  replace (writeUint32s hdr ++ list_byte_of_string pwd ++ x00 :: stringTable args)
    with ((writeUint32s hdr ++ list_byte_of_string pwd ++ [x00]) ++ stringTable args)
    by (rewrite <- !app_assoc; reflexivity).
  rewrite <- (drop_to_argument
                (writeUint32s hdr ++ list_byte_of_string pwd ++ [x00])
                args i a Ha). f_equal.
  assert (Hlen : lenl hdr = lenl args + 1).
  { unfold hdr, lenl. simpl. rewrite length_map, length_argOffsets. lia. }
  pose proof (length_header_and_pwd pwd hdr) as Hl.
  rewrite trueOffset_firstOffset. unfold firstOffset. unfold lenl in *. lia.
Qed.


(** X2.  For all inputs, header entry 0 is the number of arguments and
    header entry [i+1] is the true offset of argument [i], both reduced
    modulo 2^32; at the true offset the buffer holds the bytes of the
    argument followed by a 0 byte. *)
Theorem encodeCommandLine_header pwd args :
  header (encodeCommandLine pwd args) 0 = Some (uint32 (lenl args))
  /\ forall i a, args !! i = Some a ->
       header (encodeCommandLine pwd args) (S i)
       = Some (uint32 (trueOffset pwd args i))
       /\ take (String.length a)
               (drop (Z.to_nat (trueOffset pwd args i)) (encodeCommandLine pwd args))
          = list_byte_of_string a
       /\ drop (Z.to_nat (trueOffset pwd args i)) (encodeCommandLine pwd args)
            !! String.length a = Some x00.
Proof.
  assert (Hidem : forall x, uint32 (uint32 x) = uint32 x).
  { intros x. unfold uint32. apply Z.mod_mod. discriminate. }
  split.
  - rewrite encodeCommandLine_closed.
    erewrite header_writeUint32s by reflexivity. rewrite Hidem. reflexivity.
  - intros i a Ha. split; [|split].
    + rewrite encodeCommandLine_closed.
      erewrite header_writeUint32s.
      2:{ simpl. rewrite list_lookup_fmap.
          rewrite (argOffsets_lookup_Some args _ i a Ha). reflexivity. }
      rewrite Hidem, trueOffset_firstOffset. reflexivity.
    + rewrite (drop_trueOffset pwd args i a Ha).
      rewrite <- length_list_byte_of_string. apply take_app_length.
    + rewrite (drop_trueOffset pwd args i a Ha).
      rewrite <- length_list_byte_of_string.
      rewrite lookup_app_r by lia. rewrite Nat.sub_diag. reflexivity.
Qed.

Lemma encodeCommandLine_header_witness :
  header (encodeCommandLine "/" ["firefox"; "-new-tab"]%string) 2 = Some 22.
Proof.
  exact (proj1 (proj2 (encodeCommandLine_header "/" ["firefox"; "-new-tab"]%string)
                  1%nat "-new-tab"%string eq_refl)).
Defined.

Lemma list_byte_of_string_app (a b : string) :
  list_byte_of_string (a ++ b)
  = list_byte_of_string a ++ list_byte_of_string b.
Proof.
  unfold list_byte_of_string.
  induction a as [|c a IH]; [reflexivity|].
  change (list_ascii_of_string (String c a ++ b))
    with (c :: list_ascii_of_string (a ++ b)).
  simpl. f_equal. exact IH.
Qed.

(** X3.  Nothing is escaped: an argument with an embedded 0 byte is
    written as it is, and a reader of the layout finds only the part
    before that byte at the argument's offset. *)
Theorem encodeCommandLine_embedded_nul pwd args i a b :
  args !! i = Some (a ++ String nul b)%string ->
  nulFree a = true ->
  cstringAt (encodeCommandLine pwd args) (trueOffset pwd args i) = Some a.
Proof.
  intros Ha Hnul. unfold cstringAt.
  assert (H0 : 0 <= trueOffset pwd args i).
  { rewrite trueOffset_firstOffset. unfold firstOffset, lenl, len. lia. }
  destruct (Z.ltb_spec (trueOffset pwd args i) 0) as [Hneg|_]; [lia|].
  rewrite (drop_trueOffset pwd args i _ Ha), list_byte_of_string_app.
  change (list_byte_of_string (String nul b)) with (x00 :: list_byte_of_string b).
  rewrite <- app_assoc. simpl app.
  rewrite cstring_terminated by (apply nulFree_In, Hnul).
  simpl. rewrite string_of_list_byte_of_string. reflexivity.
Qed.

Lemma encodeCommandLine_embedded_nul_witness :
  cstringAt (encodeCommandLine "/" ["firefox"; String "a" (String nul "b")]%string)
            22 = Some "a"%string.
Proof.
  apply (encodeCommandLine_embedded_nul "/"
           ["firefox"; String "a" (String nul "b")]%string 1%nat "a" "b");
    reflexivity.
Defined.

(** X4.  The working directory has no header entry; it is the first
    string of the table, right after the header, and a working directory
    without 0 bytes is read back from there. *)
Theorem encodeCommandLine_pwd pwd args :
  nulFree pwd = true ->
  drop (Z.to_nat (4 * (lenl args + 1))) (encodeCommandLine pwd args)
  = list_byte_of_string pwd ++ x00 :: stringTable args
  /\ cstringAt (encodeCommandLine pwd args) (4 * (lenl args + 1)) = Some pwd.
Proof.
  intros Hnul.
  assert (Hdrop : drop (Z.to_nat (4 * (lenl args + 1))) (encodeCommandLine pwd args)
                  = list_byte_of_string pwd ++ x00 :: stringTable args).
  { rewrite encodeCommandLine_closed.
    set (hdr := uint32 (lenl args) :: map uint32 (argOffsets (firstOffset pwd args) args)).
    assert (Hlen : Z.to_nat (4 * (lenl args + 1)) = List.length (writeUint32s hdr)).
    { rewrite length_writeUint32s. unfold hdr, lenl. simpl List.length.
      rewrite length_map, length_argOffsets. lia. }
    rewrite Hlen. apply drop_app_length. }
  split; [exact Hdrop|].
  unfold cstringAt.
  destruct (Z.ltb_spec (4 * (lenl args + 1)) 0) as [Hneg|_];
    [unfold lenl in Hneg; lia|].
  rewrite Hdrop, cstring_terminated by (apply nulFree_In, Hnul).
  simpl. rewrite string_of_list_byte_of_string. reflexivity.
Qed.

Lemma encodeCommandLine_pwd_witness :
  cstringAt (encodeCommandLine "/home/u" ["firefox"]%string) 8
  = Some "/home/u"%string.
Proof.
  apply (encodeCommandLine_pwd "/home/u" ["firefox"]%string). reflexivity.
Defined.

(** Reading back what was encoded, from the lemmas on the header. *)
Lemma decode_encode pwd args :
  forallb nulFree args = true ->
  offsetsFit pwd args = true ->
  decodeCommandLine (encodeCommandLine pwd args) = Some args.
Proof.
  intros Hnul Hfit. apply offsetsFit_Forall in Hfit.
  unfold decodeCommandLine. rewrite (encoded_argc pwd args Hfit).
  unfold lenl. rewrite Nat2Z.id.
  rewrite (decodeArgs_spec (encodeCommandLine pwd args) args).
  - rewrite drop_0. f_equal. apply firstn_all.
  - intros i a Ha.
    destruct (encoded_argument pwd args i a Hnul Hfit Ha) as (Hh & Hc & _).
    eauto.
  - lia.
Qed.

(** X5.  Two command lines with the same encoding are the same: the
    arguments are equal and so are the working directories, for arguments
    without 0 bytes whose offsets fit in 32 bits. *)
Theorem encodeCommandLine_injective pwd1 args1 pwd2 args2 :
  forallb nulFree args1 = true -> offsetsFit pwd1 args1 = true ->
  forallb nulFree args2 = true -> offsetsFit pwd2 args2 = true ->
  encodeCommandLine pwd1 args1 = encodeCommandLine pwd2 args2 ->
  args1 = args2 /\ pwd1 = pwd2.
Proof.
  intros Hn1 Hf1 Hn2 Hf2 Heq.
  assert (Hargs : args1 = args2).
  { pose proof (decode_encode pwd1 args1 Hn1 Hf1) as H1.
    pose proof (decode_encode pwd2 args2 Hn2 Hf2) as H2.
    rewrite Heq in H1. congruence. }
  split; [exact Hargs|]. subst args2.
  rewrite !encodeCommandLine_closed in Heq.
  apply app_inj_1 in Heq as [_ Heq].
  2:{ rewrite !length_writeUint32s. simpl.
      rewrite !length_map, !length_argOffsets. reflexivity. }
  change (list_byte_of_string pwd1 ++ [x00] ++ stringTable args1
          = list_byte_of_string pwd2 ++ [x00] ++ stringTable args1) in Heq.
  rewrite !app_assoc in Heq. apply app_inv_tail in Heq.
  apply app_inv_tail in Heq.
  rewrite <- (string_of_list_byte_of_string pwd1),
          <- (string_of_list_byte_of_string pwd2), Heq.
  reflexivity.
Qed.

Lemma encodeCommandLine_injective_witness :
  ["firefox"; "a"]%string = ["firefox"; "a"]%string /\ "/"%string = "/"%string.
Proof.
  apply (encodeCommandLine_injective "/" ["firefox"; "a"]%string
           "/" ["firefox"; "a"]%string); reflexivity.
Defined.

(** ** The matcher *)

Lemma reads_refl s : reads s s.
Proof.
  unfold reads. split; [exists []; split; reflexivity|]. repeat split.
Qed.

Lemma reads_trans s1 s2 s3 : reads s1 s2 -> reads s2 s3 -> reads s1 s3.
Proof.
  intros ((r1 & Hr1 & Hf1) & Hp1 & Ht1 & Hw1 & Hs1 & Hx1)
         ((r2 & Hr2 & Hf2) & Hp2 & Ht2 & Hw2 & Hs2 & Hx2).
  unfold reads. split.
  - exists (r2 ++ r1). rewrite Hr2, Hr1, app_assoc. split; [reflexivity|].
    rewrite forallb_app, Hf1, Hf2. reflexivity.
  - repeat split; congruence.
Qed.

Lemma reads_addRequest r s : isRead r = true -> reads s (addRequest r s).
Proof.
  intros Hr. unfold reads. split.
  - exists [r]. split; [reflexivity|]. simpl. rewrite Hr. reflexivity.
  - repeat split.
Qed.

Lemma reads_addLog msg s : reads s (addLog msg s).
Proof.
  unfold reads. split; [exists []; split; reflexivity|]. repeat split.
Qed.

Lemma readOnly_ret {A} (a : A) : readOnly (ret a).
Proof. intros s. apply reads_refl. Qed.

Lemma readOnly_bind {A B} (m : X A) (k : A -> X B) :
  readOnly m -> (forall a, readOnly (k a)) -> readOnly (bind m k).
Proof.
  intros Hm Hk s. unfold bind. specialize (Hm s).
  destruct (m s) as [a s1|msg s1|s1|s1|]; try exact Hm.
  specialize (Hk a s1).
  destruct (k a s1) as [b s2|msg s2|s2|s2|]; try exact Hk;
    exact (reads_trans _ _ _ Hm Hk).
Qed.

Lemma readOnly_GetProperty win p : readOnly (GetProperty win p).
Proof. intros s. apply reads_addRequest. reflexivity. Qed.

Lemma readOnly_QueryTree win : readOnly (QueryTree win).
Proof. intros s. apply reads_addRequest. reflexivity. Qed.

Lemma readOnly_logFatal {A} msg : readOnly (@logFatal A msg).
Proof. intros s. apply reads_refl. Qed.

Lemma readOnly_index str i : readOnly (index str i).
Proof.
  intros s. unfold index. destruct (String.get i str); apply reads_refl.
Qed.

Lemma readOnly_clientScan cs win : readOnly (clientScan cs win).
Proof.
  induction cs as [|c rest IH]; [apply readOnly_ret|].
  simpl. apply readOnly_bind; [apply readOnly_GetProperty|].
  intros [v|]; [apply readOnly_ret|exact IH].
Qed.

Lemma readOnly_ClientWindow win : readOnly (ClientWindow win).
Proof.
  unfold ClientWindow. apply readOnly_bind; [apply readOnly_QueryTree|].
  intros [cs|]; [apply readOnly_clientScan|apply readOnly_logFatal].
Qed.

Lemma readOnly_propMatch win p val : readOnly (propMatch win p val).
Proof.
  unfold propMatch. apply readOnly_bind; [apply readOnly_GetProperty|].
  intros [v|]; apply readOnly_ret.
Qed.

Lemma readOnly_profileMatch win p val : readOnly (profileMatch win p val).
Proof.
  unfold profileMatch. apply readOnly_bind; [apply readOnly_GetProperty|].
  intros [v|]; [|apply readOnly_ret]. cbv zeta.
  destruct (_ || _); [apply readOnly_ret|].
  apply readOnly_bind; [apply readOnly_index|]. intros c.
  destruct (Ascii.eqb c "/"); [|apply readOnly_ret].
  apply readOnly_bind; [apply readOnly_index|]. intros d.
  destruct (_ && _); apply readOnly_ret.
Qed.

Lemma readOnly_findScan nm user profile program cs : forall wrongver,
  readOnly (findScan nm cs user profile program wrongver).
Proof.
  induction cs as [|c rest IH]; intros wrongver; [apply readOnly_ret|].
  simpl. apply readOnly_bind; [apply readOnly_ClientWindow|]. intros win.
  apply readOnly_bind; [apply readOnly_GetProperty|].
  intros [v|]; [|apply IH].
  destruct (negb _); [apply IH|].
  apply readOnly_bind; [apply readOnly_propMatch|]. intros m1.
  apply readOnly_bind.
  { destruct m1; [apply readOnly_profileMatch|apply readOnly_ret]. }
  intros m2. apply readOnly_bind.
  { destruct m2; [apply readOnly_propMatch|apply readOnly_ret]. }
  intros [|]; [apply readOnly_ret|apply IH].
Qed.

Lemma readOnly_findFirefox nm user profile program :
  readOnly (findFirefox nm user profile program).
Proof.
  unfold findFirefox.
  apply readOnly_bind; [intros s; apply reads_refl|]. intros root.
  apply readOnly_bind; [apply readOnly_QueryTree|].
  intros [cs|]; [|apply readOnly_logFatal].
  apply readOnly_bind; [apply readOnly_findScan|].
  intros [win|wrongver]; [apply readOnly_ret|].
  apply readOnly_bind; [|intros _; apply readOnly_ret].
  destruct (negb _); [|apply readOnly_ret].
  intros s. apply reads_addLog.
Qed.

(** X6.  Looking for the Firefox window only reads from the server and
    always ends: whatever the filters and the windows, [findFirefox]
    returns, exits or panics after [QueryTree] and [GetProperty] requests
    only, with every property as it was; it never waits for an event.
    The one thing it may add is the line about a window of another
    protocol version, and only when it returns 0. *)
Theorem findFirefox_reads_only nm user profile program s :
  match findFirefox nm user profile program s with
  | Returned w s' =>
      reads s s' /\ (w <> 0 -> logged s' = logged s)
  | Fatal _ s' | Panicked s' => reads s s'
  | Blocked _ | OutOfFuel => False
  end.
Proof.
  pose proof (readOnly_findFirefox nm user profile program s) as Hr.
  destruct (findFirefox nm user profile program s) as [w s'|msg s'|s'|s'|] eqn:H;
    try exact Hr.
  split; [exact Hr|]. intros Hw.
  unfold findFirefox in H.
  apply bind_Returned in H as (root & s0 & Hroot & H). injection Hroot as <- <-.
  apply bind_Returned in H as (t & s1 & Ht & H). injection Ht as <- <-.
  destruct (tree s !! rootWin s) as [cs|]; [|discriminate].
  apply bind_Returned in H as (r & s2 & Hscan & H).
  apply findScan_inv in Hscan as [(_ & _ & _ & Hlog) _].
  destruct r as [win|wv].
  - injection H as _ <-. exact Hlog.
  - apply bind_Returned in H as (u & s3 & _ & H). injection H as <- _.
    contradiction.
Qed.

Lemma findFirefox_reads_only_witness :
  logged (endState (findFirefox mozillaNames "u" "default" "firefox" xyzServer)
                   xyzServer)
  = logged xyzServer.
Proof.
  generalize (findFirefox_reads_only mozillaNames "u" "default" "firefox"
                xyzServer).
  set (o := findFirefox mozillaNames "u" "default" "firefox" xyzServer).
  assert (E : exists s', o = Returned 10 s')
    by (eexists; vm_compute; reflexivity).
  destruct E as [s' ->]. intros [_ H]. apply H. discriminate.
Defined.

Lemma clientScan_value cs win : forall s,
  exists s', clientScan cs win s = Returned (clientOf (props s) cs win) s'
             /\ frame s s'.
Proof.
  induction cs as [|c rest IH]; intros s.
  - exists s. split; [reflexivity|apply frame_refl].
  - simpl clientScan. unfold bind, GetProperty, clientOf. simpl List.find.
    unfold hasState at 1.
    destruct (props s !! (c, "WM_STATE"%string)) as [v|] eqn:Hc.
    + eexists. split; [reflexivity|apply frame_addRequest].
    + destruct (IH (addRequest (ReqGetProperty c "WM_STATE") s)) as (s' & H & Hf).
      exists s'. split; [exact H|].
      exact (frame_trans _ _ _ (frame_addRequest _ s) Hf).
Qed.

Lemma ClientWindow_value win s :
  match tree s !! win with
  | None => ClientWindow win s = Fatal "c_w:" (addRequest (ReqQueryTree win) s)
  | Some cs =>
      exists s', ClientWindow win s = Returned (clientOf (props s) cs win) s'
                 /\ frame s s'
  end.
Proof.
  unfold ClientWindow, bind, QueryTree.
  destruct (tree s !! win) as [cs|]; [|reflexivity].
  destruct (clientScan_value cs win (addRequest (ReqQueryTree win) s))
    as (s' & H & Hf).
  exists s'. split; [exact H|].
  exact (frame_trans _ _ _ (frame_addRequest _ s) Hf).
Qed.

(** X7.  [ClientWindow] looks one level down only: its result is the
    first direct child, in the server's order, that has a [WM_STATE]
    property, whatever the window itself has, and the window itself when
    no child has one; when the tree query fails the program exits. *)
Theorem ClientWindow_first_child win s :
  match tree s !! win with
  | None => ClientWindow win s = Fatal "c_w:" (addRequest (ReqQueryTree win) s)
  | Some cs =>
      returnedValue (ClientWindow win s) = Some (clientOf (props s) cs win)
      /\ (forall c, clientOf (props s) cs win = c ->
            (c ∈ cs /\ is_Some (props s !! (c, "WM_STATE"%string)))
            \/ (c = win
                /\ forall c', c' ∈ cs -> props s !! (c', "WM_STATE"%string) = None))
  end.
Proof.
  pose proof (ClientWindow_value win s) as H.
  destruct (tree s !! win) as [cs|]; [|exact H].
  destruct H as (s' & H & _). split; [rewrite H; reflexivity|].
  intros c Hc. unfold clientOf in Hc.
  destruct (List.find (hasState (props s)) cs) as [c0|] eqn:Hfind.
  - left. subst c0. apply find_some in Hfind as [Hin Hst].
    split; [apply list_elem_of_In, Hin|].
    unfold hasState in Hst.
    destruct (props s !! (c, "WM_STATE"%string)); [eauto|discriminate].
  - right. split; [congruence|]. intros c' Hin.
    apply list_elem_of_In in Hin.
    pose proof (find_none _ _ Hfind c' Hin) as Hst. unfold hasState in Hst.
    destruct (props s !! (c', "WM_STATE"%string)); [discriminate|reflexivity].
Qed.

Lemma ClientWindow_frame c s s' :
  frame s s' ->
  returnedValue (ClientWindow c s') = returnedValue (ClientWindow c s).
Proof.
  intros (Hp & Ht & _).
  pose proof (ClientWindow_value c s) as H.
  pose proof (ClientWindow_value c s') as H'.
  rewrite Ht, Hp in H'.
  destruct (tree s !! c) as [cs|].
  - destruct H as (? & -> & _). destruct H' as (? & -> & _). reflexivity.
  - rewrite H, H'. reflexivity.
Qed.

Lemma propMatch_frame w p val s s' :
  frame s s' ->
  returnedValue (propMatch w p val s') = returnedValue (propMatch w p val s).
Proof.
  intros (Hp & _). rewrite !propMatch_eq. simpl. rewrite Hp. reflexivity.
Qed.

Lemma profileMatch_frame w p val s s' :
  frame s s' ->
  returnedValue (profileMatch w p val s')
  = returnedValue (profileMatch w p val s).
Proof.
  intros (Hp & _). rewrite !profileMatch_eq. cbv zeta. rewrite Hp.
  repeat case_match; reflexivity.
Qed.

Lemma accepts_frame nm user profile program s s' w :
  frame s s' ->
  accepts nm user profile program s' w <-> accepts nm user profile program s w.
Proof.
  intros Hf. unfold accepts.
  rewrite (propertyOf_frame s s' _ _ Hf), !(propMatch_frame _ _ _ s s' Hf),
          (profileMatch_frame _ _ _ s s' Hf).
  reflexivity.
Qed.

Lemma scanSpec_frame nm user profile program s s' cs r :
  frame s s' ->
  scanSpec nm user profile program s' cs r ->
  scanSpec nm user profile program s cs r.
Proof.
  intros Hf. unfold scanSpec. destruct r as [w|wv].
  - intros (c & Hin & Hc & Ha). exists c. split; [exact Hin|].
    rewrite <- (ClientWindow_frame c s s' Hf). split; [exact Hc|].
    apply (accepts_frame _ _ _ _ s s' w Hf), Ha.
  - intros H c w Hin Hc Ha. apply (H c w Hin).
    + rewrite (ClientWindow_frame c s s' Hf). exact Hc.
    + apply (accepts_frame _ _ _ _ s s' w Hf), Ha.
Qed.

Lemma scanSpec_skip nm user profile program s c win s1 rest r :
  ClientWindow c s = Returned win s1 ->
  ~ accepts nm user profile program s win ->
  scanSpec nm user profile program s rest r ->
  scanSpec nm user profile program s (c :: rest) r.
Proof.
  intros Hcw Hno. unfold scanSpec. destruct r as [w|wv].
  - intros (c' & Hin & H). exists c'. split; [|exact H].
    apply elem_of_cons. right. exact Hin.
  - intros H c' w Hin Hc'. apply elem_of_cons in Hin as [->|Hin].
    + rewrite Hcw in Hc'. injection Hc' as <-. exact Hno.
    + exact (H c' w Hin Hc').
Qed.

Lemma findScan_accepts nm user profile program cs : forall wrongver s r s',
  findScan nm cs user profile program wrongver s = Returned r s' ->
  scanSpec nm user profile program s cs r.
Proof.
  induction cs as [|c rest IH]; intros wrongver s r s' H.
  - injection H as <- <-. intros c w Hin. apply elem_of_nil in Hin. contradiction.
  - simpl findScan in H.
    apply bind_Returned in H as (win & s1 & Hcw & H).
    pose proof (ClientWindow_inv _ _ _ _ Hcw) as Hf1.
    apply bind_Returned in H as (pv & s2 & Hget & H).
    injection Hget as <- <-.
    set (s2 := addRequest (ReqGetProperty win (versProp nm)) s1) in *.
    assert (Hf2 : frame s s2)
      by exact (frame_trans _ _ _ Hf1 (frame_addRequest _ s1)).
    assert (Hvers : propertyOf s win (versProp nm)
                    = option_map string_of_list_byte (props s1 !! (win, versProp nm))).
    { rewrite <- (propertyOf_frame s s1 _ _ Hf1). reflexivity. }
    destruct (props s1 !! (win, versProp nm)) as [v|].
    + destruct (String.eqb (string_of_list_byte v) firefoxVersion) eqn:Hver;
        simpl negb in H; cbv iota in H.
      * apply bind_Returned in H as (m1 & s3 & Hm1 & H).
        apply bind_Returned in H as (m2 & s4 & Hm2 & H).
        apply bind_Returned in H as (m3 & s5 & Hm3 & H).
        pose proof (propMatch_inv _ _ _ _ _ _ Hm1) as Hf3.
        assert (Hf23 : frame s s3) by exact (frame_trans _ _ _ Hf2 Hf3).
        assert (Hf4 : frame s s4).
        { destruct m1.
          - exact (frame_trans _ _ _ Hf23 (profileMatch_inv _ _ _ _ _ _ Hm2)).
          - injection Hm2 as _ <-. exact Hf23. }
        assert (Hf5 : frame s s5).
        { destruct m2.
          - exact (frame_trans _ _ _ Hf4 (propMatch_inv _ _ _ _ _ _ Hm3)).
          - injection Hm3 as _ <-. exact Hf4. }
        assert (Hv1 : returnedValue (propMatch win (userProp nm) user s) = Some m1).
        { rewrite <- (propMatch_frame _ _ _ s s2 Hf2), Hm1. reflexivity. }
        assert (Hv2 : m1 = true ->
                      returnedValue (profileMatch win (profProp nm) profile s) = Some m2).
        { intros ->. rewrite <- (profileMatch_frame _ _ _ s s3 Hf23), Hm2. reflexivity. }
        assert (Hv3 : m2 = true ->
                      returnedValue (propMatch win (progProp nm) program s) = Some m3).
        { intros ->. rewrite <- (propMatch_frame _ _ _ s s4 Hf4), Hm3. reflexivity. }
        assert (Hm12 : m2 = true -> m1 = true).
        { destruct m1; [reflexivity|]. injection Hm2 as <- _. intros; assumption. }
        assert (Hm23 : m3 = true -> m2 = true).
        { destruct m2; [reflexivity|]. injection Hm3 as <- _. intros; assumption. }
        destruct m3.
        -- injection H as <- <-. exists c. split; [apply elem_of_cons; left; reflexivity|].
           split; [rewrite Hcw; reflexivity|].
           pose proof (Hm23 eq_refl) as ->. pose proof (Hm12 eq_refl) as ->.
           unfold accepts. rewrite Hvers, Hv1, (Hv2 eq_refl), (Hv3 eq_refl).
           simpl. apply String.eqb_eq in Hver. rewrite Hver. repeat split.
        -- apply (scanSpec_skip _ _ _ _ s c win s1 rest r Hcw).
           ++ intros (_ & Ha1 & Ha2 & Ha3).
              rewrite Hv1 in Ha1. injection Ha1 as ->.
              rewrite (Hv2 eq_refl) in Ha2. injection Ha2 as ->.
              rewrite (Hv3 eq_refl) in Ha3. discriminate.
           ++ exact (scanSpec_frame _ _ _ _ s s5 rest r Hf5 (IH _ _ _ _ H)).
      * apply (scanSpec_skip _ _ _ _ s c win s1 rest r Hcw).
        -- intros (Ha & _). rewrite Hvers in Ha. simpl in Ha. injection Ha as Ha.
           rewrite Ha, String.eqb_refl in Hver. discriminate.
        -- exact (scanSpec_frame _ _ _ _ s s2 rest r Hf2 (IH _ _ _ _ H)).
    + apply (scanSpec_skip _ _ _ _ s c win s1 rest r Hcw).
      * intros (Ha & _). rewrite Hvers in Ha. discriminate.
      * exact (scanSpec_frame _ _ _ _ s s2 rest r Hf2 (IH _ _ _ _ H)).
Qed.

(** X8.  A window that [findFirefox] returns is the client window of a
    child of the root, has the exact protocol version and passes the
    user, profile and program filters; and when the result is 0 without
    such a window, no child's client window is accepted. *)
Theorem findFirefox_accepts nm user profile program s w s' :
  findFirefox nm user profile program s = Returned w s' ->
  exists cs,
    tree s !! rootWin s = Some cs
    /\ ((exists c, c ∈ cs /\ returnedValue (ClientWindow c s) = Some w
                   /\ accepts nm user profile program s w)
        \/ (w = 0
            /\ forall c w', c ∈ cs ->
                 returnedValue (ClientWindow c s) = Some w' ->
                 ~ accepts nm user profile program s w')).
Proof.
  intros H. unfold findFirefox in H.
  apply bind_Returned in H as (root & s0 & Hroot & H).
  injection Hroot as <- <-.
  apply bind_Returned in H as (t & s1 & Ht & H).
  injection Ht as <- <-.
  destruct (tree s !! rootWin s) as [cs|]; [|discriminate].
  exists cs. split; [reflexivity|].
  apply bind_Returned in H as (r & s2 & Hscan & H).
  apply findScan_accepts in Hscan.
  apply (scanSpec_frame _ _ _ _ s _ cs r (frame_addRequest _ s)) in Hscan.
  destruct r as [win|wv].
  - injection H as <- _. left. exact Hscan.
  - apply bind_Returned in H as (u & s3 & _ & H). injection H as <- _.
    right. split; [reflexivity|exact Hscan].
Qed.

Lemma findFirefox_accepts_witness :
  exists cs,
    tree xyzServer !! rootWin xyzServer = Some cs
    /\ ((exists c, c ∈ cs /\ returnedValue (ClientWindow c xyzServer) = Some 10
                   /\ accepts mozillaNames "u" "default" "firefox" xyzServer 10)
        \/ (10 = 0
            /\ forall c w', c ∈ cs ->
                 returnedValue (ClientWindow c xyzServer) = Some w' ->
                 ~ accepts mozillaNames "u" "default" "firefox" xyzServer w')).
Proof.
  refine (findFirefox_accepts mozillaNames "u" "default" "firefox" xyzServer 10 _ _).
  vm_compute. reflexivity.
Defined.

Lemma profileMatch_abnormal win p val s :
  match profileMatch win p val s with
  | Panicked _ => props s !! (win, p) = Some [] /\ String.eqb val "" = false
  | Returned _ _ => True
  | _ => False
  end.
Proof.
  rewrite profileMatch_eq. cbv zeta.
  destruct (props s !! (win, p)) as [v|]; [|exact I].
  destruct (String.eqb_spec val "") as [->|Hval]; [exact I|].
  destruct (String.eqb (string_of_list_byte v) val); [exact I|].
  simpl orb. cbv iota.
  destruct (string_of_list_byte v) as [|c sv'] eqn:E.
  - apply string_of_list_byte_nil in E. subst v. auto.
  - destruct (Ascii.eqb c "/"); [|exact I].
    destruct val; [congruence|exact I].
Qed.

Lemma scanFailure_skip nm user profile s s2 c rest {A} (o : Outcome A) :
  frame s s2 ->
  scanFailure nm user profile s2 rest o ->
  scanFailure nm user profile s (c :: rest) o.
Proof.
  intros Hf. pose proof Hf as (Hp & Ht & _).
  unfold scanFailure. destruct o as [a s'|msg s'|s'|s'|]; try tauto.
  - intros (-> & c' & Hin & Hnone). split; [reflexivity|].
    exists c'. split; [apply elem_of_cons; right; exact Hin|congruence].
  - intros (Hprof & c' & w & Hin & Hc & Hv & Hu & He). split; [exact Hprof|].
    exists c', w. split; [apply elem_of_cons; right; exact Hin|].
    rewrite <- (ClientWindow_frame c' s s2 Hf), <- (propertyOf_frame s s2 _ _ Hf),
            <- (propMatch_frame _ _ _ s s2 Hf).
    repeat split; try assumption. congruence.
Qed.

Lemma scanFailure_frame nm user profile s s2 cs {A} (o : Outcome A) :
  frame s s2 ->
  scanFailure nm user profile s2 cs o ->
  scanFailure nm user profile s cs o.
Proof.
  intros Hf. pose proof Hf as (Hp & Ht & _).
  unfold scanFailure. destruct o as [a s'|msg s'|s'|s'|]; try tauto.
  - intros (-> & c' & Hin & Hnone). split; [reflexivity|].
    exists c'. split; [exact Hin|congruence].
  - intros (Hprof & c' & w & Hin & Hc & Hv & Hu & He). split; [exact Hprof|].
    exists c', w. split; [exact Hin|].
    rewrite <- (ClientWindow_frame c' s s2 Hf), <- (propertyOf_frame s s2 _ _ Hf),
            <- (propMatch_frame _ _ _ s s2 Hf).
    repeat split; try assumption. congruence.
Qed.

Lemma findScan_failure nm user profile program cs : forall wrongver s,
  scanFailure nm user profile s cs
              (findScan nm cs user profile program wrongver s).
Proof.
  induction cs as [|c rest IH]; intros wrongver s; [exact I|].
  simpl findScan. unfold bind at 1.
  pose proof (ClientWindow_value c s) as Hcw.
  destruct (tree s !! c) as [ccs|] eqn:Htree.
  2:{ rewrite Hcw. split; [reflexivity|]. exists c.
      split; [apply elem_of_cons; left; reflexivity|exact Htree]. }
  destruct Hcw as (s1 & Hcw & Hf1). rewrite Hcw.
  set (win := clientOf (props s) ccs c) in *.
  unfold bind at 1, GetProperty at 1.
  set (s2 := addRequest (ReqGetProperty win (versProp nm)) s1).
  assert (Hf2 : frame s s2)
    by exact (frame_trans _ _ _ Hf1 (frame_addRequest _ s1)).
  assert (Hvers : propertyOf s win (versProp nm)
                  = option_map string_of_list_byte (props s1 !! (win, versProp nm))).
  { rewrite <- (propertyOf_frame s s1 _ _ Hf1). reflexivity. }
  destruct (props s1 !! (win, versProp nm)) as [v|];
    [|exact (scanFailure_skip _ _ _ s s2 c rest _ Hf2 (IH _ s2))].
  destruct (String.eqb (string_of_list_byte v) firefoxVersion) eqn:Hver;
    cbv beta iota delta [negb];
    [|exact (scanFailure_skip _ _ _ s s2 c rest _ Hf2 (IH _ s2))].
  unfold bind at 1. rewrite propMatch_eq.
  set (s3 := addRequest (ReqGetProperty win (userProp nm)) s2).
  assert (Hf3 : frame s s3)
    by exact (frame_trans _ _ _ Hf2 (frame_addRequest _ s2)).
  assert (Hv1 : returnedValue (propMatch win (userProp nm) user s)
                = Some match props s2 !! (win, userProp nm) with
                       | Some v0 => String.eqb user "" || String.eqb (string_of_list_byte v0) user
                       | None => false
                       end).
  { rewrite <- (propMatch_frame _ _ _ s s2 Hf2), propMatch_eq. reflexivity. }
  destruct (match props s2 !! (win, userProp nm) with
            | Some v0 => String.eqb user "" || String.eqb (string_of_list_byte v0) user
            | None => false
            end).
  2:{ unfold bind at 1, ret at 1. unfold bind at 1, ret at 1.
      exact (scanFailure_skip _ _ _ s s3 c rest _ Hf3 (IH _ s3)). }
  unfold bind at 1.
  pose proof (profileMatch_abnormal win (profProp nm) profile s3) as Hpm.
  destruct (profileMatch win (profProp nm) profile s3) as [m2 s4|msg s4|s4|s4|] eqn:Hm2;
    try contradiction.
  - pose proof (profileMatch_inv _ _ _ _ _ _ Hm2) as Hf34.
    assert (Hf4 : frame s s4) by exact (frame_trans _ _ _ Hf3 Hf34).
    cbv beta iota. destruct m2.
    + unfold bind at 1. rewrite propMatch_eq.
      set (s5 := addRequest (ReqGetProperty win (progProp nm)) s4).
      assert (Hf5 : frame s s5)
        by exact (frame_trans _ _ _ Hf4 (frame_addRequest _ s4)).
      destruct (match props s4 !! (win, progProp nm) with
                | Some v0 => _
                | None => false
                end); [exact I|].
      exact (scanFailure_skip _ _ _ s s5 c rest _ Hf5 (IH _ s5)).
    + unfold bind at 1, ret at 1.
      exact (scanFailure_skip _ _ _ s s4 c rest _ Hf4 (IH _ s4)).
  - destruct Hpm as [Hempty Hprof]. split; [exact Hprof|].
    exists c, win. split; [apply elem_of_cons; left; reflexivity|].
    split; [rewrite Hcw; reflexivity|].
    split; [rewrite Hvers; simpl; apply String.eqb_eq in Hver; congruence|].
    split; [exact Hv1|].
    destruct Hf3 as (Hp & _). rewrite <- Hp. exact Hempty.
Qed.

(** X9.  The ways [findFirefox] fails.  It panics only with a non-empty
    profile filter and a child of the root whose client window has the
    exact protocol version, passes the user filter and has a profile
    property that is present and empty.  It exits only when the tree
    query fails, on the root or on one of the root's children. *)
Theorem findFirefox_failures nm user profile program s :
  (forall s',
     findFirefox nm user profile program s = Panicked s' ->
     String.eqb profile "" = false
     /\ exists cs c w,
          tree s !! rootWin s = Some cs /\ c ∈ cs
          /\ returnedValue (ClientWindow c s) = Some w
          /\ propertyOf s w (versProp nm) = Some firefoxVersion
          /\ returnedValue (propMatch w (userProp nm) user s) = Some true
          /\ props s !! (w, profProp nm) = Some [])
  /\ (forall msg s',
        findFirefox nm user profile program s = Fatal msg s' ->
        (msg = "QueryTree"%string /\ tree s !! rootWin s = None)
        \/ (msg = "c_w:"%string
            /\ exists cs c, tree s !! rootWin s = Some cs /\ c ∈ cs
                            /\ tree s !! c = None)).
Proof.
  assert (Hscan : forall cs,
            scanFailure nm user profile s cs
              (findScan nm cs user profile program ""
                 (addRequest (ReqQueryTree (rootWin s)) s))).
  { intros cs. exact (scanFailure_frame _ _ _ s _ cs _ (frame_addRequest _ s)
                        (findScan_failure nm user profile program cs "" _)). }
  assert (Hout :
    match findFirefox nm user profile program s with
    | Panicked _ =>
        String.eqb profile "" = false
        /\ exists cs c w,
             tree s !! rootWin s = Some cs /\ c ∈ cs
             /\ returnedValue (ClientWindow c s) = Some w
             /\ propertyOf s w (versProp nm) = Some firefoxVersion
             /\ returnedValue (propMatch w (userProp nm) user s) = Some true
             /\ props s !! (w, profProp nm) = Some []
    | Fatal msg _ =>
        (msg = "QueryTree"%string /\ tree s !! rootWin s = None)
        \/ (msg = "c_w:"%string
            /\ exists cs c, tree s !! rootWin s = Some cs /\ c ∈ cs
                            /\ tree s !! c = None)
    | _ => True
    end).
  { unfold findFirefox, bind at 1, RootWin, bind at 1, QueryTree.
    destruct (tree s !! rootWin s) as [cs|]; [|left; split; reflexivity].
    specialize (Hscan cs). unfold bind at 1.
    destruct (findScan nm cs user profile program ""
                (addRequest (ReqQueryTree (rootWin s)) s))
      as [[win|wv] s1|msg s1|s1|s1|]; try contradiction.
    - exact I.
    - unfold bind, logPrintf, ret.
      destruct (negb (String.eqb wv "")); exact I.
    - right. destruct Hscan as (-> & c & Hin & Hn).
      split; [reflexivity|]. exists cs, c. auto.
    - destruct Hscan as (Hp & c & w & Hrest). split; [exact Hp|].
      exists cs, c, w. split; [reflexivity|exact Hrest]. }
  split.
  - intros s' H. rewrite H in Hout. exact Hout.
  - intros msg s' H. rewrite H in Hout. exact Hout.
Qed.

Lemma findFirefox_failures_witness :
  String.eqb "default" "" = false
  /\ exists cs c w,
       tree emptyProfileServer !! rootWin emptyProfileServer = Some cs /\ c ∈ cs
       /\ returnedValue (ClientWindow c emptyProfileServer) = Some w
       /\ propertyOf emptyProfileServer w "_MOZILLA_VERSION" = Some firefoxVersion
       /\ returnedValue (propMatch w "_MOZILLA_USER" "u" emptyProfileServer)
          = Some true
       /\ props emptyProfileServer !! (w, "_MOZILLA_PROFILE"%string) = Some [].
Proof.
  refine (proj1 (findFirefox_failures mozillaNames "u" "default" "firefox"
                   emptyProfileServer) _ _).
  vm_compute. reflexivity.
Defined.

(** X10.  [profileMatch] extends [propMatch]: whatever [propMatch]
    accepts it accepts, with the same request; and for a filter that
    starts with a slash the suffix rule is never used, so whenever
    [profileMatch] returns, [propMatch] returns the same. *)
Theorem profileMatch_extends_propMatch win p val s :
  (returnedValue (propMatch win p val s) = Some true ->
   profileMatch win p val s = propMatch win p val s)
  /\ (startsWithSlash val ->
      forall b, returnedValue (profileMatch win p val s) = Some b ->
                profileMatch win p val s = propMatch win p val s).
Proof.
  rewrite propMatch_eq, profileMatch_eq. cbv zeta.
  destruct (props s !! (win, p)) as [v|]; [|split; reflexivity].
  destruct (String.eqb val "" || String.eqb (string_of_list_byte v) val);
    split; try reflexivity.
  - discriminate.
  - intros [rest ->] b.
    destruct (string_of_list_byte v) as [|c sv']; [discriminate|].
    destruct (Ascii.eqb c "/"); reflexivity.
Qed.

Lemma profileMatch_extends_propMatch_witness :
  profileMatch 10 "_MOZILLA_PROFILE" xyzProfile xyzServer
  = propMatch 10 "_MOZILLA_PROFILE" xyzProfile xyzServer.
Proof.
  apply (proj1 (profileMatch_extends_propMatch 10 "_MOZILLA_PROFILE"
                  xyzProfile xyzServer)).
  vm_compute. reflexivity.
Defined.

(** ** The event wait, further *)



(** ** The lock, further *)

Lemma tryLock_spec nm win s :
  exists res s1,
    tryLock nm win s = Returned res s1
    /\ script s1 = script s
    /\ (if res
        then lockFree nm win s = true
             /\ props s1 = <[(win, lockProp nm) := lockValue]> (props s)
        else props s1 = props s)
    /\ (lockFree nm win s = false ->
        res = false
        /\ requests s1
           = [ReqSync; ReqUngrab; ReqGetProperty win (lockProp nm); ReqGrab]
             ++ requests s).
Proof.
  rewrite tryLock_eq. cbv zeta.
  destruct (lockFree nm win s) eqn:Hfree.
  - destruct (writeFaults s) as [|[] wf]; eexists _, _;
      (split; [reflexivity|]); (split; [reflexivity|]);
      (split; [|discriminate]); auto.
  - eexists _, _. split; [reflexivity|]. split; [reflexivity|].
    split; [reflexivity|]. intros _. split; reflexivity.
Qed.

(** X12.  The lock attempt is exclusive.  It reports success only when
    the lock property was absent or empty, and then the property holds
    this client's placeholder; when it reports failure no property has
    changed.  On a lock that another client holds it does not even
    issue a write: the grab, the read, the ungrab and the sync are all
    it sends. *)
Theorem tryLock_exclusive nm win s res s1 :
  tryLock nm win s = Returned res s1 ->
  (if res
   then lockFree nm win s = true
        /\ props s1 = <[(win, lockProp nm) := lockValue]> (props s)
   else props s1 = props s)
  /\ (lockFree nm win s = false ->
      res = false
      /\ requests s1
         = [ReqSync; ReqUngrab; ReqGetProperty win (lockProp nm); ReqGrab]
           ++ requests s).
Proof.
  intros H.
  destruct (tryLock_spec nm win s) as (res' & s1' & H' & _ & Hp & Hr).
  rewrite H in H'. injection H' as <- <-. split; assumption.
Qed.

Lemma tryLock_exclusive_witness :
  props (endState (tryLock mozillaNames 10 staleLockServer) staleLockServer)
  = props staleLockServer.
Proof.
  exact (proj1 (tryLock_exclusive mozillaNames 10 staleLockServer false
                  (endState (tryLock mozillaNames 10 staleLockServer)
                            staleLockServer) eq_refl)).
Defined.

Lemma lockFirefox_outcome nm win : forall n s,
  (List.length (script s) < n)%nat ->
  match lockFirefox nm win s with
  | Returned _ s' => props s' !! (win, lockProp nm) = Some lockValue
  | Fatal msg _ => msg = "Firefox window disappeared"%string
  | Blocked _ => True
  | Panicked _ | OutOfFuel => False
  end.
Proof.
  induction n as [|n IH]; intros s Hlen; [lia|].
  rewrite lockFirefox_unfold. unfold bind at 1.
  destruct (tryLock_spec nm win s) as (res & s1 & -> & Hsc & Hp & _).
  destruct res; cbv beta iota.
  - unfold ret. destruct Hp as [_ ->]. apply lookup_insert_eq.
  - unfold bind at 1.
    destruct (waitForPropChange_outcome win (lockProp nm) s1)
      as [([ev good] & s2 & Hw)|(s2 & Hw & _)]; rewrite Hw; [|exact I].
    apply waitForPropChange_inv in Hw as (_ & _ & _ & Hlt).
    destruct good; cbv beta iota delta [snd negb]; [|reflexivity].
    apply IH. rewrite Hsc in Hlt. lia.
Qed.

(** X13.  What [lockFirefox] can end in.  When it returns, the lock
    property holds this client's placeholder.  Its only exit is the
    message that the window disappeared.  It never panics and the loop
    never runs out of turns; the one other end is waiting for ever for
    an event that does not come. *)
Theorem lockFirefox_ends nm win s :
  match lockFirefox nm win s with
  | Returned _ s' => props s' !! (win, lockProp nm) = Some lockValue
  | Fatal msg _ => msg = "Firefox window disappeared"%string
  | Blocked _ => True
  | Panicked _ | OutOfFuel => False
  end.
Proof.
  apply (lockFirefox_outcome nm win (S (List.length (script s)))). lia.
Qed.

(** X14.  Locking and unlocking.  After a lock attempt followed by
    [unlockFirefox] the lock property is deleted whether or not the
    attempt succeeded: the unlock does not check who holds the lock.
    When the property was absent before, the two together leave every
    property as it was. *)
Theorem lock_unlock_roundtrip nm win s res s1 s2 :
  tryLock nm win s = Returned res s1 ->
  unlockFirefox nm win s1 = Returned tt s2 ->
  props s2 = delete (win, lockProp nm) (props s)
  /\ (props s !! (win, lockProp nm) = None -> props s2 = props s).
Proof.
  intros H1 H2.
  destruct (tryLock_spec nm win s) as (res' & s1' & H' & _ & Hp & _).
  rewrite H1 in H'. injection H' as <- <-.
  injection H2 as <-. simpl.
  assert (Hdel : delete (win, lockProp nm) (props s1)
                 = delete (win, lockProp nm) (props s)).
  { destruct res; [destruct Hp as [_ ->]; apply delete_insert_eq|rewrite Hp; reflexivity]. }
  unfold lockatom. rewrite Hdel. split; [reflexivity|].
  intros Hnone. apply delete_id, Hnone.
Qed.

Lemma lock_unlock_roundtrip_witness :
  props (endState (unlockFirefox mozillaNames 10
                     (endState (tryLock mozillaNames 10 (faultyServer []))
                               (faultyServer [])))
                  (faultyServer []))
  = delete (10, "_MOZILLA_LOCK"%string) (props (faultyServer [])).
Proof.
  exact (proj1 (lock_unlock_roundtrip mozillaNames 10 (faultyServer []) false
                  _ _ eq_refl eq_refl)).
Defined.

(** ** The session, further *)

Lemma getResponse_outcome nm win s :
  (exists resp s',
     getResponse nm win s = Returned resp s'
     /\ (requests s' = requests s
         \/ requests s' = ReqGetProperty win (respProp nm) :: requests s))
  \/ (exists s', getResponse nm win s = Blocked s' /\ requests s' = requests s).
Proof.
  destruct (script_split win (respProp nm) (script s))
    as [Hq|(pre & d & rest & Hs & Hq & Hd)].
  - right. rewrite getResponse_quiet by exact Hq. eexists. split; reflexivity.
  - left. rewrite (getResponse_decisive nm win s pre d rest) by assumption.
    unfold responseAt.
    destruct d as [w p v|w p|w [a []]|w| |]; eexists _, _;
      (split; [reflexivity|]); simpl; auto.
Qed.

Lemma session_tail_outcome nm win s :
  match (resp <- getResponse nm win ;;
         unlockFirefox nm win ;;; Sync ;;; ret resp) s with
  | Returned _ s' =>
      props s' !! (win, lockProp nm) = None
      /\ exists mid,
           requests s' = ReqSync :: ReqDeleteProperty win (lockProp nm) :: mid
                         ++ requests s
           /\ (mid = [] \/ mid = [ReqGetProperty win (respProp nm)])
  | Blocked s' => requests s' = requests s
  | _ => False
  end.
Proof.
  unfold bind at 1.
  destruct (getResponse_outcome nm win s)
    as [(resp & s1 & -> & Hr)|(s1 & -> & Hr)]; [|exact Hr].
  unfold bind, unlockFirefox, DeleteProperty, Sync, ret.
  split; [simpl; apply lookup_delete_eq|].
  destruct Hr as [Hr|Hr]; simpl; rewrite Hr.
  - exists []. split; [reflexivity|now left].
  - exists [ReqGetProperty win (respProp nm)]. split; [reflexivity|now right].
Qed.

Lemma session_write_outcome nm win cmd s :
  match (ok <- ChangeProp win (cmdlProp nm) "STRING" cmd ;;
         (if negb ok
          then unlockFirefox nm win ;;; logFatal "command line change:"
          else ret tt) ;;;
         resp <- getResponse nm win ;;
         unlockFirefox nm win ;;; Sync ;;; ret resp) s with
  | Returned _ s' => props s' !! (win, lockProp nm) = None
  | Fatal msg s' =>
      msg = "command line change:"%string
      /\ props s' !! (win, lockProp nm) = None
  | Blocked s' =>
      requests s' = ReqChangeProp win (cmdlProp nm) "STRING" cmd :: requests s
  | Panicked _ | OutOfFuel => False
  end.
Proof.
  unfold bind at 1. unfold ChangeProp.
  set (s1 := addRequest (ReqChangeProp win (cmdlProp nm) "STRING" cmd) s).
  destruct (writeFaults s1) as [|[] wf].
  - cbv beta iota delta [negb]. unfold bind at 1, ret at 1.
    pose proof (session_tail_outcome nm win
                  (setProps (insert (win, cmdlProp nm) cmd) s1)) as H.
    destruct (bind (getResponse nm win) _ _) as [r s'|msg s'|s'|s'|];
      try contradiction; [exact (proj1 H)|exact H].
  - cbv beta iota delta [negb].
    unfold bind, unlockFirefox, DeleteProperty, logFatal.
    split; [reflexivity|simpl; apply lookup_delete_eq].
  - cbv beta iota delta [negb]. unfold bind at 1, ret at 1.
    pose proof (session_tail_outcome nm win
                  (setProps (insert (win, cmdlProp nm) cmd)
                     (setWriteFaults wf s1))) as H.
    destruct (bind (getResponse nm win) _ _) as [r s'|msg s'|s'|s'|];
      try contradiction; [exact (proj1 H)|exact H].
Qed.

(** X15.  What a session can end in, with or without [force].  When
    [submitCommand] returns, the lock property is absent.  It exits with
    one of three messages only: the listen failed, before any other
    request; the window disappeared while waiting for the lock, without
    [force] only; or the command line could not be written, and then the
    lock property has been deleted first.  It never panics; the one
    other end is waiting for ever. *)
Theorem submitCommand_ends nm win cmd force s :
  match submitCommand nm win cmd force s with
  | Returned _ s' => props s' !! (win, lockProp nm) = None
  | Fatal msg s' =>
      (msg = "listen error:"%string /\ s' = addRequest (ReqListen win) s)
      \/ (msg = "Firefox window disappeared"%string /\ force = false)
      \/ (msg = "command line change:"%string
          /\ props s' !! (win, lockProp nm) = None)
  | Blocked _ => True
  | Panicked _ | OutOfFuel => False
  end.
Proof.
  unfold submitCommand. unfold bind at 1, Listen.
  set (s0 := addRequest (ReqListen win) s).
  destruct (listenFault s); cbv beta iota delta [negb].
  { unfold bind at 1, logFatal. left. split; reflexivity. }
  unfold bind at 1, ret at 1. unfold bind at 1.
  assert (Hw := fun s1 => session_write_outcome nm win cmd s1).
  destruct force; cbv beta iota delta [negb].
  - unfold ret at 1. specialize (Hw s0).
    destruct (bind (ChangeProp win (cmdlProp nm) "STRING" cmd) _ s0)
      as [r s'|msg s'|s'|s'|]; try contradiction; auto.
  - pose proof (lockFirefox_outcome nm win (S (List.length (script s0))) s0
                  (Nat.lt_succ_diag_r _)) as Hl.
    destruct (lockFirefox nm win s0) as [[] s1|msg s1|s1|s1|];
      try contradiction; auto.
    specialize (Hw s1).
    destruct (bind (ChangeProp win (cmdlProp nm) "STRING" cmd) _ s1)
      as [r s'|msg s'|s'|s'|]; try contradiction; auto.
Qed.

(** X16.  A session without [force] that meets no obstacle: the lock is
    free, no write fails, and the script reaches a step that ends the
    wait for the response.  The session returns the response property as
    it is at that step (the empty string unless the step is a new-value
    event), after exactly these requests: the listen, one lock attempt,
    the write of the command line, at most one read of the response, the
    deletion of the lock and the sync.  The properties at the end are
    those at that step without the lock. *)
Theorem submitCommand_session nm win cmd s pre d rest :
  listenFault s = false ->
  lockFree nm win s = true ->
  writeFaults s = [] ->
  script s = pre ++ d :: rest ->
  quiet win (respProp nm) pre = true ->
  decisive win (respProp nm) d = true ->
  let m := applyEnvs pre (<[(win, cmdlProp nm) := cmd]>
                            (<[(win, lockProp nm) := lockValue]> (props s))) in
  exists s',
    submitCommand nm win cmd false s = Returned (sessionResponse nm win d m) s'
    /\ props s' = delete (win, lockProp nm) m
    /\ script s' = rest
    /\ exists mid,
         requests s'
         = ReqSync :: ReqDeleteProperty win (lockProp nm) :: mid
           ++ ReqChangeProp win (cmdlProp nm) "STRING" cmd
           :: lockRequests nm win ++ ReqListen win :: requests s
         /\ (mid = [] \/ mid = [ReqGetProperty win (respProp nm)]).
Proof.
  intros Hl Hfree Hwf Hs Hq Hd m.
  set (s0 := addRequest (ReqListen win) s).
  set (sL := addRequest ReqSync (addRequest ReqUngrab
               (setProps (insert (win, lockProp nm) lockValue)
                  (addRequest (ReqChangeProp win (lockProp nm) "STRING" lockValue)
                     (addRequest (ReqGetProperty win (lockProp nm))
                        (addRequest ReqGrab s0)))))).
  set (sW := setProps (insert (win, cmdlProp nm) cmd)
               (addRequest (ReqChangeProp win (cmdlProp nm) "STRING" cmd) sL)).
  assert (Hlisten : Listen win s = Returned true s0).
  { unfold Listen. rewrite Hl. reflexivity. }
  assert (Hlock : (if negb false then lockFirefox nm win else ret tt) s0
                  = Returned tt sL).
  { cbv beta iota delta [negb]. rewrite lockFirefox_unfold. unfold bind at 1.
    rewrite tryLock_eq. cbv zeta.
    change (lockFree nm win s0) with (lockFree nm win s). rewrite Hfree.
    change (writeFaults s0) with (writeFaults s). rewrite Hwf. reflexivity. }
  assert (Hwrite : ChangeProp win (cmdlProp nm) "STRING" cmd sL = Returned true sW).
  { unfold ChangeProp.
    change (writeFaults (addRequest (ReqChangeProp win (cmdlProp nm) "STRING" cmd) sL))
      with (writeFaults s).
    rewrite Hwf. reflexivity. }
  rewrite (submitCommand_from_write nm win cmd false s s0 sL Hlisten Hlock).
  unfold bind at 1. rewrite Hwrite. cbv beta iota delta [negb].
  unfold bind at 1, ret at 1. unfold bind at 1.
  rewrite (getResponse_decisive nm win sW pre d rest Hs Hq Hd).
  unfold responseAt, sessionResponse.
  destruct d as [w p v|w p|w [a []]|w| |];
    (eexists; split; [reflexivity|]; split; [reflexivity|];
     split; [reflexivity|]).
  all: try (exists []; split; [reflexivity|now left]).
  exists [ReqGetProperty win (respProp nm)]. split; [reflexivity|now right].
Qed.

Lemma submitCommand_session_witness :
  exists s',
    submitCommand mozillaNames 10 (list_byte_of_string "cmd") false
      (server [] [] [EnvSet 10 "_MOZILLA_RESPONSE" (list_byte_of_string "200 ok");
                     respEvent mozillaNames 10 PropertyNewValue] [])
    = Returned "200 ok"%string s'.
Proof.
  destruct (submitCommand_session mozillaNames 10 (list_byte_of_string "cmd")
              (server [] [] [EnvSet 10 "_MOZILLA_RESPONSE" (list_byte_of_string "200 ok");
                             respEvent mozillaNames 10 PropertyNewValue] [])
              [EnvSet 10 "_MOZILLA_RESPONSE" (list_byte_of_string "200 ok")]
              (respEvent mozillaNames 10 PropertyNewValue) []
              eq_refl eq_refl eq_refl eq_refl eq_refl eq_refl)
    as (s' & H & _).
  exists s'. exact H.
Defined.

(** X17.  There is no timeout.  When the lock is free and no write fails
    but nothing in the script ends the wait for the response, the
    session waits for ever after the write of the command line: it has
    taken the lock and never issues the request that deletes it. *)
Theorem submitCommand_unanswered nm win cmd s :
  listenFault s = false ->
  lockFree nm win s = true ->
  writeFaults s = [] ->
  quiet win (respProp nm) (script s) = true ->
  exists s',
    submitCommand nm win cmd false s = Blocked s'
    /\ props s'
       = applyEnvs (script s)
           (<[(win, cmdlProp nm) := cmd]>
              (<[(win, lockProp nm) := lockValue]> (props s)))
    /\ requests s'
       = ReqChangeProp win (cmdlProp nm) "STRING" cmd
         :: lockRequests nm win ++ ReqListen win :: requests s.
Proof.
  intros Hl Hfree Hwf Hq.
  set (s0 := addRequest (ReqListen win) s).
  set (sL := addRequest ReqSync (addRequest ReqUngrab
               (setProps (insert (win, lockProp nm) lockValue)
                  (addRequest (ReqChangeProp win (lockProp nm) "STRING" lockValue)
                     (addRequest (ReqGetProperty win (lockProp nm))
                        (addRequest ReqGrab s0)))))).
  set (sW := setProps (insert (win, cmdlProp nm) cmd)
               (addRequest (ReqChangeProp win (cmdlProp nm) "STRING" cmd) sL)).
  assert (Hlisten : Listen win s = Returned true s0).
  { unfold Listen. rewrite Hl. reflexivity. }
  assert (Hlock : (if negb false then lockFirefox nm win else ret tt) s0
                  = Returned tt sL).
  { cbv beta iota delta [negb]. rewrite lockFirefox_unfold. unfold bind at 1.
    rewrite tryLock_eq. cbv zeta.
    change (lockFree nm win s0) with (lockFree nm win s). rewrite Hfree.
    change (writeFaults s0) with (writeFaults s). rewrite Hwf. reflexivity. }
  assert (Hwrite : ChangeProp win (cmdlProp nm) "STRING" cmd sL = Returned true sW).
  { unfold ChangeProp.
    change (writeFaults (addRequest (ReqChangeProp win (cmdlProp nm) "STRING" cmd) sL))
      with (writeFaults s).
    rewrite Hwf. reflexivity. }
  rewrite (submitCommand_from_write nm win cmd false s s0 sL Hlisten Hlock).
  unfold bind at 1. rewrite Hwrite. cbv beta iota delta [negb].
  unfold bind at 1, ret at 1. unfold bind at 1.
  rewrite (getResponse_quiet nm win sW Hq).
  eexists. split; [reflexivity|]. split; reflexivity.
Qed.

Lemma submitCommand_unanswered_witness :
  exists s',
    submitCommand mozillaNames 10 (list_byte_of_string "cmd") false
      (server [] [] [EvOther] [])
    = Blocked s'
    /\ props s' !! (10, "_MOZILLA_LOCK"%string) = Some lockValue.
Proof.
  destruct (submitCommand_unanswered mozillaNames 10 (list_byte_of_string "cmd")
              (server [] [] [EvOther] []) eq_refl eq_refl eq_refl eq_refl)
    as (s' & H & Hp & _).
  exists s'. split; [exact H|]. rewrite Hp. vm_compute. reflexivity.
Defined.

(** ** Property names *)

Lemma fixupOne_prefix pfix pre suf :
  String.length pre = String.length "_MOZILLA" ->
  fixupOne pfix (pre ++ suf) = (pfix ++ suf)%string.
Proof.
  intros Hlen. unfold fixupOne. cbv zeta. f_equal.
  rewrite string_length_app, <- Hlen.
  replace (String.length pre + String.length suf - String.length pre)%nat
    with (String.length suf) by lia.
  apply substring_app_r.
Qed.

Lemma string_app_inv_head (p a b : string) :
  (p ++ a)%string = (p ++ b)%string -> a = b.
Proof.
  induction p as [|c p IH]; intros H; [exact H|].
  apply IH. change (String c (p ++ a) = String c (p ++ b)) in H. congruence.
Qed.

(** X18.  The prefix rewrite.  [fixupPref] cuts the first eight
    characters of a name, whatever they are, and puts the new prefix in
    their place.  On the names the program starts with this replaces
    [_MOZILLA] and keeps the seven names pairwise distinct, for every
    prefix. *)
Theorem fixupPref_names pfix :
  (forall pre suf,
     String.length pre = 8%nat ->
     fixupOne pfix (pre ++ suf) = (pfix ++ suf)%string)
  /\ fixupPref pfix mozillaNames
     = {| lockProp := pfix ++ "_LOCK"; cmdlProp := pfix ++ "_COMMANDLINE";
          respProp := pfix ++ "_RESPONSE"; versProp := pfix ++ "_VERSION";
          userProp := pfix ++ "_USER"; profProp := pfix ++ "_PROFILE";
          progProp := pfix ++ "_PROGRAM" |}
  /\ NoDup (let nm := fixupPref pfix mozillaNames in
            [lockProp nm; cmdlProp nm; respProp nm; versProp nm;
             userProp nm; profProp nm; progProp nm]).
Proof.
  split; [intros pre suf Hlen; apply fixupOne_prefix; exact Hlen|].
  split; [reflexivity|].
  change (NoDup (String.append pfix <$>
                   ["_LOCK"; "_COMMANDLINE"; "_RESPONSE"; "_VERSION";
                    "_USER"; "_PROFILE"; "_PROGRAM"]%string)).
  apply NoDup_fmap_2; [intros a b; apply string_app_inv_head|].
  apply (bool_decide_unpack _). vm_compute. reflexivity.
Qed.

Lemma fixupPref_names_witness :
  fixupOne "_CKS" ("_MOZILLA" ++ "_LOCK") = ("_CKS" ++ "_LOCK")%string.
Proof.
  apply (proj1 (fixupPref_names "_CKS") "_MOZILLA" "_LOCK"). reflexivity.
Defined.

(** ** The program *)

Lemma flagArgs_count fl : (1 <? snd (flagArgs fl)) = conflicting fl.
Proof.
  unfold flagArgs, conflicting.
  destruct (Flag.nw fl), (Flag.nt fl), (Flag.search fl); reflexivity.
Qed.



(** X20.  Conflicting pass-through flags.  [count] exceeds 1 exactly
    when two of [-new-window], [-new-tab] and [-search] are given.
    Such a run without [-find] never returns and never writes: it ends
    in an exit or a panic after read requests only.  The flags are
    checked after the search for the window, so the message about them
    comes only once a window has been found. *)
Theorem main_conflicting_flags fl connected getwd s :
  conflicting fl = true ->
  Flag.find fl = false ->
  match snd (main fl connected getwd s) with
  | Fatal msg s' =>
      reads s s'
      /\ forall w s1,
           connected = true ->
           findFirefox (propNames fl) (Flag.user fl) (Flag.profile fl)
                       (Flag.program fl) s = Returned w s1 ->
           msg = (if Z.eqb w 0
                  then "can't find a running Firefox window."
                  else "conflicting arguments:"
                       ++ Join (tl (fst (flagArgs fl))) " ")%string
  | Panicked s' => reads s s'
  | Returned _ _ | Blocked _ | OutOfFuel => False
  end.
Proof.
  intros Hc Hfind. unfold main. cbv zeta.
  destruct connected; cbv beta iota delta [negb];
    [|split; [apply reads_refl|discriminate]].
  pose proof (readOnly_findFirefox (propNames fl) (Flag.user fl)
                (Flag.profile fl) (Flag.program fl) s) as Hr.
  destruct (findFirefox (propNames fl) (Flag.user fl) (Flag.profile fl)
              (Flag.program fl) s) as [w s1|msg s1|s1|s1|];
    try contradiction; try exact Hr; [|split; [exact Hr|discriminate]].
  destruct (Z.eqb w 0) eqn:Hw.
  - split; [exact Hr|]. intros w' s1' _ H. injection H as <- _.
    rewrite Hw. reflexivity.
  - rewrite Hfind, flagArgs_count, Hc. simpl snd.
    split; [exact Hr|]. intros w' s1' _ H. injection H as <- _.
    rewrite Hw. reflexivity.
Qed.

Lemma main_conflicting_flags_witness :
  match snd (main (exampleFlags false true true false []) true None xyzServer) with
  | Fatal msg s' =>
      reads xyzServer s'
      /\ forall w s1,
           true = true ->
           findFirefox (propNames (exampleFlags false true true false []))
             "u" "default" "firefox" xyzServer = Returned w s1 ->
           msg = (if Z.eqb w 0
                  then "can't find a running Firefox window."
                  else "conflicting arguments:"
                       ++ Join (tl (fst (flagArgs (exampleFlags false true true
                                                     false [])))) " ")%string
  | Panicked s' => reads xyzServer s'
  | Returned _ _ | Blocked _ | OutOfFuel => False
  end.
Proof.
  exact (main_conflicting_flags (exampleFlags false true true false []) true None
           xyzServer eq_refl eq_refl).
Defined.

Lemma ChangeProp_requests win p typ data s ok s' :
  ChangeProp win p typ data s = Returned ok s' ->
  requests s' = ReqChangeProp win p typ data :: requests s.
Proof.
  unfold ChangeProp.
  destruct (writeFaults (addRequest (ReqChangeProp win p typ data) s))
    as [|[] wf]; intros H; injection H as _ <-; reflexivity.
Qed.

Lemma submitCommand_returned nm win cmd force s resp s' :
  submitCommand nm win cmd force s = Returned resp s' ->
  props s' !! (win, lockProp nm) = None
  /\ ReqChangeProp win (cmdlProp nm) "STRING" cmd ∈ requests s'.
Proof.
  intros H. unfold submitCommand in H.
  apply bind_Returned in H as (ok & s0 & _ & H).
  apply bind_Returned in H as (u0 & s0' & _ & H).
  apply bind_Returned in H as (u1 & s1 & _ & H).
  apply bind_Returned in H as (ok2 & s2 & Hcp & H).
  apply ChangeProp_requests in Hcp.
  apply bind_Returned in H as (u2 & s2' & Hif & H).
  destruct ok2; cbv beta iota delta [negb] in Hif; [|discriminate].
  injection Hif as _ <-.
  pose proof (session_tail_outcome nm win s2) as Ht.
  rewrite H in Ht. destruct Ht as (Hlock & mid & Hreq & _).
  split; [exact Hlock|].
  rewrite Hreq, Hcp.
  apply elem_of_cons. right. apply elem_of_cons. right.
  apply elem_of_app. right. apply elem_of_cons. left. reflexivity.
Qed.

(** X21.  What a run that returns without [-find] has sent.  The flags
    did not conflict, so the argument vector is [firefox], at most one
    pass-through flag and the positional arguments; with [-search] these
    are joined by spaces into one argument, so the vector has exactly
    three entries.  The window that was found is not 0, the command line
    written to it is the encoding of that vector with the current
    directory ([/] when it is not known), and the lock property of the
    window is absent at the end. *)
Theorem main_command_line fl getwd s u s' :
  snd (main fl true getwd s) = Returned u s' ->
  Flag.find fl = false ->
  conflicting fl = false
  /\ hd_error (allArgs fl) = Some "firefox"%string
  /\ (Flag.search fl = true ->
      allArgs fl = ["firefox"; "-search"; Join (Flag.args fl) " "]%string)
  /\ (Flag.search fl = false ->
      exists flag, allArgs fl = "firefox"%string :: flag ++ Flag.args fl
                   /\ (flag = [] \/ flag = ["-new-window"%string]
                       \/ flag = ["-new-tab"%string]))
  /\ exists foxwin,
       foxwin <> 0
       /\ returnedValue (findFirefox (propNames fl) (Flag.user fl)
                           (Flag.profile fl) (Flag.program fl) s) = Some foxwin
       /\ ReqChangeProp foxwin (cmdlProp (propNames fl)) "STRING"
            (encodeCommandLine (default "/"%string getwd) (allArgs fl))
          ∈ requests s'
       /\ props s' !! (foxwin, lockProp (propNames fl)) = None.
Proof.
  intros H Hfind. unfold main in H. cbv zeta in H.
  cbv beta iota delta [negb] in H.
  destruct (findFirefox (propNames fl) (Flag.user fl) (Flag.profile fl)
              (Flag.program fl) s) as [w s1|msg s1|s1|s1|]; try discriminate.
  destruct (Z.eqb_spec w 0) as [->|Hw]; [discriminate|].
  rewrite Hfind, flagArgs_count in H.
  destruct (conflicting fl) eqn:Hc; [discriminate|].
  split; [reflexivity|].
  assert (Hshape : hd_error (allArgs fl) = Some "firefox"%string
    /\ (Flag.search fl = true ->
        allArgs fl = ["firefox"; "-search"; Join (Flag.args fl) " "]%string)
    /\ (Flag.search fl = false ->
        exists flag, allArgs fl = "firefox"%string :: flag ++ Flag.args fl
                     /\ (flag = [] \/ flag = ["-new-window"%string]
                         \/ flag = ["-new-tab"%string]))).
  { unfold conflicting in Hc. unfold allArgs, flagArgs.
    destruct (Flag.nw fl), (Flag.nt fl), (Flag.search fl); try discriminate;
      (split; [reflexivity|]); (split; [try discriminate; reflexivity|]);
      try discriminate; intros _.
    - exists ["-new-window"%string]. auto.
    - exists ["-new-tab"%string]. auto.
    - exists []. auto. }
  destruct Hshape as (Hhd & Hs & Hns).
  split; [exact Hhd|]. split; [exact Hs|]. split; [exact Hns|].
  exists w. split; [exact Hw|]. split; [reflexivity|].
  destruct (submitCommand (propNames fl) w _ (Flag.force fl) _)
    as [resp s3|msg s3|s3|s3|] eqn:Hsub; try discriminate.
  injection H as _ <-.
  apply submitCommand_returned in Hsub as [Hlock Hin].
  split; [|exact Hlock].
  destruct getwd; exact Hin.
Qed.

Lemma main_command_line_witness :
  allArgs (exampleFlags false false false true ["rocq"; "prover"]%string)
  = ["firefox"; "-search"; "rocq prover"]%string.
Proof.
  set (fl := exampleFlags false false false true ["rocq"; "prover"]%string).
  assert (E : exists s', snd (main fl true (Some "/home/u"%string) answeringServer)
                         = Returned tt s')
    by (eexists; vm_compute; reflexivity).
  destruct E as [s' E].
  exact (proj1 (proj2 (proj2 (main_command_line fl (Some "/home/u"%string)
                                answeringServer tt s' E eq_refl))) eq_refl).
Defined.
